(** * html5validator: the diagnostic pipeline of [validator.py]

    A shallow embedding of [html5validator/validator.py] and the
    properties of its [Validator] class: construction of the ignore
    lists, file discovery, invocation of the checking engine, noise
    filtering and structured-message retrieval.

    Python text is Unicode ([from __future__ import unicode_literals], and
    the engine's error stream is decoded before use), so a string is a
    sequence of code points. *)

From Stdlib Require Import String Ascii.
From Stdlib Require Import List NArith ZArith Bool Lia Permutation.
From Stdlib Require DecimalString.
Import ListNotations.

Set Implicit Arguments.
Set Warnings "-register-all".

(** ** Unicode strings *)

Module Str.

Definition char := N.
Definition str := list char.

(** An ASCII literal of the source, as a sequence of code points. *)
Definition u (s : string) : str :=
  List.map N_of_ascii (list_ascii_of_string s).

Definition dquote : char := 34%N.          (* the ASCII double quote *)
Definition squote : char := 39%N.          (* the ASCII apostrophe *)
Definition ldquo : char := 8220%N.         (* U+201C, left typographic quote *)
Definition rdquo : char := 8221%N.         (* U+201D, right typographic quote *)
Definition LF : char := 10%N.
Definition CR : char := 13%N.
Definition dot : char := 46%N.
Definition slash : char := 47%N.

Fixpoint eqb (a b : str) : bool :=
  match a, b with
  | [], [] => true
  | x :: a', y :: b' => N.eqb x y && eqb a' b'
  | _, _ => false
  end.

(** [s.startswith(p)] *)
Fixpoint startswith (p s : str) : bool :=
  match p, s with
  | [], _ => true
  | x :: p', y :: s' => N.eqb x y && startswith p' s'
  | _ :: _, [] => false
  end.

(** [s.endswith(p)] *)
Definition endswith (p s : str) : bool := startswith (rev p) (rev s).

(** [p in s] for two strings: [p] occurs in [s] as a substring. *)
Fixpoint contains (p s : str) : bool :=
  startswith p s ||
  match s with
  | [] => false
  | _ :: s' => contains p s'
  end.

(** [x in l] for a list of strings. *)
Definition mem (x : str) (l : list str) : bool := existsb (eqb x) l.

(** [l.remove(x)], for an [x] that is in [l]: the first occurrence goes.
    (Python raises ValueError when [x] is absent; every call of the source
    is on an element known to be present.) *)
Fixpoint remove_first (x : str) (l : list str) : list str :=
  match l with
  | [] => []
  | y :: l' => if eqb x y then l' else y :: remove_first x l'
  end.

(** [s.replace(old, new)]: non-overlapping occurrences, leftmost first.
    [skip] counts the characters of an occurrence still to be passed. *)
Fixpoint replace_from (old new : str) (skip : nat) (s : str) : str :=
  match s with
  | [] => []
  | c :: s' =>
      match skip with
      | S k => replace_from old new k s'
      | O =>
          if startswith old s
          then new ++ replace_from old new (length old - 1) s'
          else c :: replace_from old new 0 s'
      end
  end.

Definition replace (old new s : str) : str :=
  match old with
  | [] => new ++ flat_map (fun c => c :: new) s
  | _ :: _ => replace_from old new 0 s
  end.

(** The line boundaries of [unicode.splitlines]. *)
Definition is_linebreak (c : char) : bool :=
  existsb (N.eqb c) [10; 11; 12; 13; 28; 29; 30; 133; 8232; 8233]%N.

(** [s.splitlines()]: [cur] is the line being read, reversed.  A carriage
    return followed by a line feed is one boundary; a final boundary does
    not open an empty last line. *)
Fixpoint splitlines_from (cur : str) (s : str) : list str :=
  match s with
  | [] => match cur with [] => [] | _ :: _ => [rev cur] end
  | c :: s' =>
      if N.eqb c CR then
        match s' with
        | d :: s'' =>
            if N.eqb d LF then rev cur :: splitlines_from [] s''
            else rev cur :: splitlines_from [] s'
        | [] => [rev cur]
        end
      else if is_linebreak c then rev cur :: splitlines_from [] s'
      else splitlines_from (c :: cur) s'
  end.

Definition splitlines (s : str) : list str := splitlines_from [] s.

(** Truth value of a string: non-empty. *)
Definition truthy (s : str) : bool :=
  match s with [] => false | _ :: _ => true end.

(** [str(n)] for an integer. *)
Definition of_Z (n : Z) : str :=
  u (DecimalString.NilZero.string_of_int (Z.to_int n)).

End Str.
Import Str.

(** ** Exceptions, results and the state monad of the embedding *)

Definition bytes := list Byte.byte.

Inductive exn : Type :=
| JavaNotFoundException
| OSError (errno : option Z)
| CalledProcessError (returncode : Z) (output : bytes)
| UnicodeDecodeError
| ReError (pattern : str)                    (* [re.error] *)
| JSONDecodeError                            (* a [ValueError] of [json.loads] *)
| KeyError (key : str)
| TypeError
| AttributeError
| IndexError
| OtherError (name : str).                   (* any other exception class *)

Inductive result (A : Type) : Type :=
| Ok (a : A)
| Raise (e : exn).
Arguments Ok {A} a.
Arguments Raise {A} e.

(** A computation over a state [S] that returns or raises; the state
    reached when an exception is raised is kept, as in Python. *)
Definition M (S A : Type) : Type := S -> result A * S.

Definition ret {S A} (a : A) : M S A := fun s => (Ok a, s).
Definition raise {S A} (e : exn) : M S A := fun s => (Raise e, s).
Definition bind {S A B} (m : M S A) (k : A -> M S B) : M S B :=
  fun s =>
    match m s with
    | (Ok a, s') => k a s'
    | (Raise e, s') => (Raise e, s')
    end.
Definition lift {S A} (r : result A) : M S A := fun s => (r, s).

Declare Scope monad_scope.
Delimit Scope monad_scope with monad.
Notation "x <- m ;; k" := (bind m (fun x => k))
  (at level 61, m at next level, right associativity) : monad_scope.
Notation "m ;;; k" := (bind m (fun _ => k))
  (at level 61, right associativity) : monad_scope.
Open Scope monad_scope.

(** [for x in l: acc = f(acc, x)], where a step may raise. *)
Fixpoint foldM {S A B} (f : A -> B -> M S A) (l : list B) (a : A) : M S A :=
  match l with
  | [] => ret a
  | x :: l' => a' <- f a x ;; foldM f l' a'
  end.

(** [[f(x) for x in l]], where [f] may raise. *)
Fixpoint mapM {S A B} (f : A -> M S B) (l : list A) : M S (list B) :=
  match l with
  | [] => ret []
  | x :: l' => y <- f x ;; ys <- mapM f l' ;; ret (y :: ys)
  end.

(** ** Library interfaces

    The modules [re], [json] and [fnmatch] are libraries, not code of the
    repository; the embedding takes their operations as interfaces. *)

(** [re.compile(p)] (which raises [re.error] on a malformed pattern) and
    [regex.search(line)] (as a truth value). *)
Class ReLib : Type := {
  re_pattern : Type;
  re_compile : str -> option re_pattern;
  re_search : re_pattern -> str -> bool
}.

(** The values [json.loads] builds. *)
Inductive json : Type :=
| JNull
| JBool (b : bool)
| JInt (n : Z)
| JFloat (repr : str)
| JStr (s : str)
| JList (items : list json)
| JDict (members : list (str * json)).

(** [json.loads(text)]; [None] when it raises for malformed text. *)
Class JsonLib : Type := {
  json_loads : str -> option json
}.

(** [fnmatch]'s test of one name against one glob pattern. *)
Class FnmatchLib : Type := {
  fnmatch_match : str -> str -> bool      (* pattern, name *)
}.

(** ** The host: platform, installed engine, process launching *)

Inductive proc_result : Type :=
| Exited (returncode : Z) (stdout stderr : bytes)
| LaunchRaised (e : exn).

Record Host : Type := {
  sys_platform : str;
  vnujar_file : str;                                (* [vnujar.__file__] *)
  (** whether the module [os] of the interpreter has the attribute [errno]:
      it has on Python up to 3.6 (and on 2.7), it has not from 3.7 on; the
      file imports [os] only *)
  os_errno : bool;
  (** what happens to the [n]-th process launched, given its command line *)
  spawn : nat -> list str -> proc_result
}.

(** The part of the world the program changes: the command lines of the
    processes it has tried to launch, oldest first. *)
Record World : Type := { attempts : list (list str) }.

Definition ENOENT : Z := 2.

(** ** Module constants *)

Definition DEFAULT_IGNORE_RE : list str :=
  [ u "\ADocument checking completed. No errors found.*" ].

Definition DEFAULT_IGNORE : list str :=
  [ u "{" ++ dquote :: u "messages" ++ dquote :: u ":[]}" ].

Definition DEFAULT_IGNORE_XML : list str :=
  [ u "</messages>";
    u "<?xml version='1.0' encoding='utf-8'?>";
    u "<messages xmlns=" ++ dquote :: u "http://n.validator.nu/messages/"
      ++ dquote :: u ">" ].

(** The report of the engine in the format ['xml'] when it has nothing to
    say: the declaration, the opening tag and the closing tag. *)
Definition clean_xml_report : list str :=
  [ u "<?xml version='1.0' encoding='utf-8'?>";
    u "<messages xmlns=" ++ dquote :: u "http://n.validator.nu/messages/"
      ++ dquote :: u ">";
    u "</messages>" ].

(** The line the engine prints in the text formats when it has nothing to
    say begins with these words. *)
Definition all_clear_words : str :=
  u "Document checking completed. No errors found".

(** [JavaNotFoundException.__str__] *)
Definition JavaNotFoundException_str : str :=
  u "Missing Java Runtime Environment on this system. "
    ++ u "The command " ++ dquote :: u "java" ++ dquote :: u " must be available.".

(** [re.sub(STDERR_IGNORE_RE, '', text, flags=re.MULTILINE)] for the fixed
    pattern [^Picked up (?:_JAVA_OPTIONS|JAVA_TOOL_OPTIONS):.*\n].  With
    MULTILINE the anchor holds at the start of the text and after every
    line feed, [.] stops at a line feed only, and the pattern ends with a
    line feed: a match is a whole line-feed-terminated line that begins with
    one of the two announcements, and the scan resumes right after it. An
    unterminated last line never matches. *)
Definition is_java_cruft (line : str) : bool :=
  startswith (u "Picked up _JAVA_OPTIONS:") line
  || startswith (u "Picked up JAVA_TOOL_OPTIONS:") line.

Fixpoint strip_java_cruft_from (cur : str) (s : str) : str :=
  match s with
  | [] => rev cur
  | c :: s' =>
      if N.eqb c LF then
        if is_java_cruft (rev cur) then strip_java_cruft_from [] s'
        else rev cur ++ LF :: strip_java_cruft_from [] s'
      else strip_java_cruft_from (c :: cur) s'
  end.

Definition strip_java_cruft (s : str) : str := strip_java_cruft_from [] s.

(** ** Bytes *)

(** [b.decode('utf-8')], strict: shortest forms only, no surrogates,
    nothing above U+10FFFF. *)
Definition is_cont (b : N) : bool := ((128 <=? b) && (b <=? 191))%N.
Definition between (lo hi b : N) : bool := ((lo <=? b) && (b <=? hi))%N.

Fixpoint utf8_decode_N (bs : list N) : option str :=
  match bs with
  | [] => Some []
  | b0 :: r0 =>
      if (b0 <? 128)%N then option_map (cons b0) (utf8_decode_N r0) else
      match r0 with
      | [] => None
      | b1 :: r1 =>
          if between 194 223 b0 then
            if is_cont b1
            then option_map (cons ((b0 - 192) * 64 + (b1 - 128))%N)
                            (utf8_decode_N r1)
            else None
          else
          match r1 with
          | [] => None
          | b2 :: r2 =>
              if between 224 239 b0 then
                if between (if N.eqb b0 224 then 160 else 128)
                           (if N.eqb b0 237 then 159 else 191) b1
                   && is_cont b2
                then option_map
                       (cons ((b0 - 224) * 4096 + (b1 - 128) * 64 + (b2 - 128))%N)
                       (utf8_decode_N r2)
                else None
              else
              match r2 with
              | [] => None
              | b3 :: r3 =>
                  if between 240 244 b0
                     && between (if N.eqb b0 240 then 144 else 128)
                                (if N.eqb b0 244 then 143 else 191) b1
                     && is_cont b2 && is_cont b3
                  then option_map
                         (cons ((b0 - 240) * 262144 + (b1 - 128) * 4096
                                + (b2 - 128) * 64 + (b3 - 128))%N)
                         (utf8_decode_N r3)
                  else None
              end
          end
      end
  end.

Definition decode_utf8 (b : bytes) : result str :=
  match utf8_decode_N (List.map Byte.to_N b) with
  | Some s => Ok s
  | None => Raise UnicodeDecodeError
  end.

(** [b.strip()] on bytes: ASCII white space goes from both ends. *)
Definition is_space_byte (b : Byte.byte) : bool :=
  existsb (N.eqb (Byte.to_N b)) [9; 10; 11; 12; 13; 32]%N.

Fixpoint lstrip_bytes (b : bytes) : bytes :=
  match b with
  | [] => []
  | x :: b' => if is_space_byte x then lstrip_bytes b' else b
  end.

Definition strip_bytes (b : bytes) : bytes :=
  rev (lstrip_bytes (rev (lstrip_bytes b))).

(** ** The Validator object *)

Record Validator : Type := {
  ignore : list str;
  ignore_re : list str;
  stack_size : option Z;
  errors_only : bool;
  detect_language : bool;
  format : option str;
  vnu_args : option (list str);
  vnu_jar_location : str
}.

(** [self.ignore = l] *)
Definition set_ignore (l : list str) (v : Validator) : Validator :=
  {| ignore := l; ignore_re := ignore_re v; stack_size := stack_size v;
     errors_only := errors_only v; detect_language := detect_language v;
     format := format v; vnu_args := vnu_args v;
     vnu_jar_location := vnu_jar_location v |}.

(** [x == 'lit'] for an optional string: [None] equals no string. *)
Definition opt_is (lit : str) (x : option str) : bool :=
  match x with
  | Some s => Str.eqb s lit
  | None => false
  end.

(** [l if l else []] for an optional list argument, as a value. *)
Definition or_empty (l : option (list str)) : list str :=
  match l with
  | Some l' => l'
  | None => []
  end.

(** ** The list objects of the caller

    A Python list is an object: the lists given to the constructor are
    the caller's, the constructor extends them in place, and one object
    may be given for two arguments.  The store holds the caller's list
    objects; a reference is a position in it.  The three default lists of
    the module are read as constants: a caller that hands one of them to
    the constructor is outside what is modelled here. *)
Definition ref : Type := nat.
Definition Lists : Type := list (list str).

(** The contents of the object at [r]. *)
Definition deref (h : Lists) (r : ref) : list str := nth r h [].

(** [l += more] on the object at [r]: the object itself grows. *)
Fixpoint extend (h : Lists) (r : ref) (more : list str) : Lists :=
  match h, r with
  | [], _ => []
  | l :: h', O => (l ++ more) :: h'
  | l :: h', S r' => l :: extend h' r' more
  end.

(** What an attribute is bound to while the constructor runs: an object
    of the caller, or a list the constructor made itself. *)
Inductive bound : Type :=
| Caller (r : ref)
| Fresh (l : list str).

(** [arg if arg else []]: the caller's object when it is given and not
    empty, a new empty list otherwise. *)
Definition arg_or_empty (h : Lists) (arg : option ref) : bound :=
  match arg with
  | Some r =>
      match deref h r with
      | [] => Fresh []
      | _ :: _ => Caller r
      end
  | None => Fresh []
  end.

(** The contents of what an attribute is bound to. *)
Definition contents (h : Lists) (b : bound) : list str :=
  match b with
  | Caller r => deref h r
  | Fresh l => l
  end.

(** [attribute += more] *)
Definition extend_bound (h : Lists) (b : bound) (more : list str)
  : Lists * bound :=
  match b with
  | Caller r => (extend h r more, Caller r)
  | Fresh l => (h, Fresh (l ++ more))
  end.

Definition _normalize_string (s : str) : str :=
  let s := replace [ldquo] [dquote] s in
  let s := replace [rdquo] [dquote] s in
  s.

Module PosixPath.
(** [os.path.join(a, b)] of [posixpath]. *)
Definition join (a b : str) : str :=
  if startswith [slash] b then b
  else if negb (truthy a) || endswith [slash] a then a ++ b
  else a ++ slash :: b.
End PosixPath.

(** ** The file system seen by [os.walk]

    A directory lists its sub-directories and its other entries, each list
    in the order the system reports them. *)
Inductive tree : Type :=
| Dir (dirs : list (str * tree)) (nondirs : list str).

Definition subdirs (t : tree) : list (str * tree) :=
  match t with Dir dirs _ => dirs end.

(** The sub-directory found under a name. *)
Fixpoint lookup {A} (name : str) (l : list (str * A)) : option A :=
  match l with
  | [] => None
  | (n, a) :: l' => if Str.eqb n name then Some a else lookup name l'
  end.

Section Program.

Context {re : ReLib} {js : JsonLib} {fn : FnmatchLib}.
Variable host : Host.

(** *** Processes *)

(** Launching a process: the attempt is recorded, and the host decides
    whether the launch raises or the process runs to its end. *)
Definition launch (cmd : list str) : M World (Z * bytes * bytes) :=
  fun w =>
    let w' := {| attempts := attempts w ++ [cmd] |} in
    match spawn host (length (attempts w)) cmd with
    | Exited rc out err => (Ok (rc, out, err), w')
    | LaunchRaised e => (Raise e, w')
    end.

(** [subprocess.check_output(cmd)] *)
Definition check_output (cmd : list str) : M World bytes :=
  r <- launch cmd ;;
  let '(rc, out, _) := r in
  if Z.eqb rc 0 then ret out else raise (CalledProcessError rc out).

Definition _cygwin_path_convert (filepath : str) : M World str :=
  out <- check_output [u "cygpath"; u "-w"; filepath] ;;
  lift (decode_utf8 (strip_bytes out)).

(** *** Construction *)

(** A computation on the world, run beside the store of list objects. *)
Definition beside_lists {A} (m : M World A) : M (Lists * World) A :=
  fun s => let '(r, w') := m (snd s) in (r, (fst s, w')).

(** [self.ignore] and [self.ignore_re] are bound to the arguments
    themselves when these are lists that are not empty, the two [+=] extend
    the bound objects in place, in the order of the source, and the two
    comprehensions then read them and bind the attributes to new lists.
    The state is the store of the caller's lists with the world; what was
    written to the store stays when the conversion of the path raises. *)
Definition __init__ (ignore_arg ignore_re_arg : option ref)
    (errors_only_arg detect_language_arg : bool) (format_arg : option str)
    (stack_size_arg : option Z) (vnu_args_arg : option (list str))
  : M (Lists * World) Validator :=
  fun s =>
    let h := fst s in
    let ignore0 := arg_or_empty h ignore_arg in
    let ignore_re0 := arg_or_empty h ignore_re_arg in
    (* add default ignore_re *)
    let '(h, ignore_re1) := extend_bound h ignore_re0 DEFAULT_IGNORE_RE in
    (* add default ignore *)
    let '(h, ignore1) := extend_bound h ignore0 DEFAULT_IGNORE in
    (* process fancy quotes in ignore *)
    let ignore2 := List.map _normalize_string (contents h ignore1) in
    let ignore_re2 := List.map _normalize_string (contents h ignore_re1) in
    (* Determine jar location. *)
    let jar := replace (u "__init__.py") (u "vnu.jar")
                 (replace (u "__init__.pyc") (u "vnu.jar")
                    (vnujar_file host)) in
    (jar <- beside_lists (if Str.eqb (sys_platform host) (u "cygwin")
                          then _cygwin_path_convert jar else ret jar) ;;
     ret {| ignore := ignore2; ignore_re := ignore_re2;
            stack_size := stack_size_arg;
            errors_only := errors_only_arg;
            detect_language := detect_language_arg;
            format := format_arg; vnu_args := vnu_args_arg;
            vnu_jar_location := jar |}) (h, snd s).

(** *** Command line *)

Definition _java_options (self : Validator) : list str :=
  match stack_size self with
  | Some n => [u "-Xss" ++ of_Z n ++ u "k"]
  | None => []
  end.

Definition _vnu_options (self : Validator) (format_arg : option str)
  : list str :=
  let fmt := match format_arg with
             | None => format self
             | Some f => Some f
             end in
  (if errors_only self then [u "--errors-only"] else [])
  ++ (if detect_language self then [] else [u "--no-langdetect"])
  ++ (match fmt with Some f => [u "--format"; f] | None => [] end)
  ++ (match vnu_args self with Some a => a | None => [] end).

Definition command (self : Validator) (files : list str)
    (format_arg : option str) : list str :=
  [u "java"] ++ _java_options self
  ++ [u "-jar"; vnu_jar_location self]
  ++ _vnu_options self format_arg
  ++ files.

(** *** Running the engine *)

(** The [try] block of [_run_validator] with its handlers.  The handler
    of [OSError] compares [e.errno] with [os.errno.ENOENT]: where [os]
    has no attribute [errno] the comparison itself raises
    [AttributeError], whatever the error was; where it has, a code equal
    to [ENOENT] becomes [JavaNotFoundException] and any other [OSError] is
    raised again.  For a [CalledProcessError] the handler decodes the
    captured output and raises the string, which is a [TypeError];
    whatever else is raised is not caught. *)
Definition popen_communicate (cmd : list str) : M World bytes :=
  fun w =>
    match launch cmd w with
    | (Ok (_, _, stderr), w') => (Ok stderr, w')
    | (Raise (OSError errno), w') =>
        if os_errno host then
          match errno with
          | Some n => if Z.eqb n ENOENT then (Raise JavaNotFoundException, w')
                      else (Raise (OSError errno), w')
          | None => (Raise (OSError errno), w')
          end
        else (Raise AttributeError, w')
    | (Raise (CalledProcessError _ output), w') =>
        match decode_utf8 output with
        | Ok _ => (Raise TypeError, w')
        | Raise e => (Raise e, w')
        end
    | (Raise e, w') => (Raise e, w')
    end.

(** [files = [self._cygwin_path_convert(f) for f in files]] on cygwin. *)
Definition converted_files (files : list str) : M World (list str) :=
  if Str.eqb (sys_platform host) (u "cygwin")
  then mapM _cygwin_path_convert files else ret files.

Definition _run_validator (self : Validator) (files : list str)
    (format_arg : option str) : M World str :=
  files <- converted_files files ;;
  stderr <- popen_communicate (command self files format_arg) ;;
  stderr <- lift (decode_utf8 stderr) ;;
  (* filter out Java cruft *)
  let stderr := strip_java_cruft stderr in
  let stderr := if negb (opt_is (u "json") format_arg)
                then (* process fancy quotes into standard quotes *)
                     _normalize_string stderr
                else stderr in
  ret stderr.

(** *** File discovery *)

(** [match] is one pattern or a list of patterns. *)
Inductive match_arg : Type :=
| OnePattern (p : str)
| Patterns (l : list str).

Definition match_list (m : match_arg) : list str :=
  match m with
  | OnePattern p => [p]
  | Patterns l => l
  end.

(** [s[0] == '.'], which raises on the empty string. *)
Definition first_is_dot (s : str) : result bool :=
  match s with
  | [] => Raise IndexError
  | c :: _ => Ok (N.eqb c dot)
  end.

(** [[x for x in l if p(x)]], where [p] may raise. *)
Fixpoint filterR (p : str -> result bool) (l : list str)
  : result (list str) :=
  match l with
  | [] => Ok []
  | x :: l' =>
      match p x with
      | Raise e => Raise e
      | Ok b =>
          match filterR p l' with
          | Raise e => Raise e
          | Ok r => Ok (if b then x :: r else r)
          end
      end
  end.

(** What the loop body does to [dirnames], in place. *)
Definition prune_dirnames (blacklist : list str) (skip_invisible : bool)
    (dirnames : list str) : result (list str) :=
  (* filter out blacklisted directory names *)
  let dirnames :=
    fold_left (fun dn b => if mem b dn then remove_first b dn else dn)
              blacklist dirnames in
  if skip_invisible then
    (* filter out directory names starting with '.' *)
    match filterR first_is_dot dirnames with
    | Raise e => Raise e
    | Ok invisible_dirs =>
        Ok (fold_left (fun dn d => remove_first d dn) invisible_dirs dirnames)
    end
  else Ok dirnames.

(** [fnmatch.filter(names, pattern)] *)
Definition fnmatch_filter (names : list str) (pattern : str) : list str :=
  filter (fnmatch_match pattern) names.

(** The paths the loop body appends to [files] in one directory. *)
Fixpoint matched_in (skip_invisible : bool) (root : str)
    (names : list str) : result (list str) :=
  match names with
  | [] => Ok []
  | filename :: names' =>
      match (if skip_invisible then first_is_dot filename else Ok false) with
      | Raise e => Raise e
      | Ok hidden =>
          match matched_in skip_invisible root names' with
          | Raise e => Raise e
          | Ok r =>
              Ok (if hidden then r else PosixPath.join root filename :: r)
          end
      end
  end.

Definition collect (match_ : list str) (skip_invisible : bool)
    (root : str) (filenames : list str) : result (list str) :=
  matched_in skip_invisible root
    (flat_map (fnmatch_filter filenames) match_).

(** The first exception in a sequence of results, or all the values. *)
Fixpoint sequenceR {A} (l : list (result (list A))) : result (list A) :=
  match l with
  | [] => Ok []
  | Raise e :: _ => Raise e
  | Ok a :: l' =>
      match sequenceR l' with
      | Raise e => Raise e
      | Ok r => Ok (a ++ r)
      end
  end.

(** The loop [for root, dirnames, filenames in os.walk(directory)] of
    [all_files], top-down: the body runs on a directory, prunes
    [dirnames] in place, and [os.walk] then descends into the names that
    are left, in their order, finding each directory by its name.  [visit]
    is what the body contributes for one directory; [rel] is the sequence
    of directory names that leads from the start of the walk to [root]
    (the body of [all_files] does not read it). *)
Fixpoint walk {A} (blacklist : list str) (skip_invisible : bool)
    (visit : list str -> str -> list str -> result (list A))
    (rel : list str) (root : str) (t : tree) : result (list A) :=
  match t with
  | Dir dirs filenames =>
      match prune_dirnames blacklist skip_invisible (List.map fst dirs) with
      | Raise e => Raise e
      | Ok dirnames =>
          match visit rel root filenames with
          | Raise e => Raise e
          | Ok here =>
              let below :=
                List.map
                  (fun d =>
                     (fst d,
                      walk blacklist skip_invisible visit
                           (rel ++ [fst d]) (PosixPath.join root (fst d))
                           (snd d)))
                  dirs in
              match sequenceR
                      (List.map (fun name =>
                                   match lookup name below with
                                   | Some r => r
                                   | None => Ok []
                                   end) dirnames) with
              | Raise e => Raise e
              | Ok deeper => Ok (here ++ deeper)
              end
          end
      end
  end.

(** [all_files(directory, match, blacklist, skip_invisible)] on the tree
    that [directory] names; [blacklist=None] is the empty list. *)
Definition all_files (directory : str) (t : tree) (match_ : match_arg)
    (blacklist : option (list str)) (skip_invisible : bool)
  : result (list str) :=
  let blacklist := match blacklist with Some b => b | None => [] end in
  let match_ := match_list match_ in
  walk blacklist skip_invisible
       (fun _ root filenames => collect match_ skip_invisible root filenames)
       [] directory t.

(** The directories the loop of [all_files] runs on, each as the names
    that lead to it from the start. *)
Definition visited (t : tree) (blacklist : option (list str))
    (skip_invisible : bool) : result (list (list str)) :=
  let blacklist := match blacklist with Some b => b | None => [] end in
  walk blacklist skip_invisible (fun rel _ _ => Ok [rel]) [] [] t.

(** *** Counting errors *)

(** The state of a method call: the object and the world. *)
Definition Obj : Type := (Validator * World)%type.

Definition get_self : M Obj Validator := fun s => (Ok (fst s), s).
Definition put_self (v : Validator) : M Obj unit :=
  fun s => (Ok tt, (v, snd s)).
Definition in_world {A} (m : M World A) : M Obj A :=
  fun s => let '(r, w') := m (snd s) in (r, (fst s, w')).

(** [for i in self.ignore: e = [l for l in e if i not in l]] *)
Definition drop_literals (literals : list str) (e : list str) : list str :=
  fold_left (fun e i => filter (fun l => negb (contains i l)) e) literals e.

(** [for i in self.ignore_re: regex = re.compile(i);
     e = [l for l in e if not regex.search(l)]] *)
Definition drop_patterns {S} (patterns : list str) (e : list str)
  : M S (list str) :=
  foldM (fun e i =>
           match re_compile i with
           | Some regex => ret (filter (fun l => negb (re_search regex l)) e)
           | None => raise (ReError i)
           end) patterns e.

(** [validate] up to its last loop: the lines that are left in [e]. *)
Definition remaining_lines (files : list str) : M Obj (list str) :=
  self <- get_self ;;
  stderr <- in_world (_run_validator self files None) ;;
  let e := splitlines stderr in
  (* Removes any empty items in the list *)
  let e := filter truthy e in
  (* Prevents removal of xml tags if there are errors *)
  (if opt_is (u "xml") (format self) && (length e <? 4)
   then put_self (set_ignore DEFAULT_IGNORE_XML self) else ret tt) ;;;
  self <- get_self ;;
  let e := drop_literals (ignore self) e in
  drop_patterns (ignore_re self) e.

(** The lines left are logged, or an all-clear is; the logger is not
    modelled. *)
Definition validate (files : list str) : M Obj nat :=
  e <- remaining_lines files ;;
  ret (length e).

(** *** Structured messages *)

(** [d['messages']]: an item of a dict by key; any other value raises. *)
Definition getitem (d : json) (key : str) : result json :=
  match d with
  | JDict members =>
      match lookup key members with
      | Some v => Ok v
      | None => Raise (KeyError key)
      end
  | _ => Raise TypeError
  end.

Definition get_messages (files : list str) : M Obj json :=
  self <- get_self ;;
  stderr <- in_world (_run_validator self files (Some (u "json"))) ;;
  json_data <- lift (match json_loads stderr with
                     | Some d => Ok d
                     | None => Raise JSONDecodeError
                     end) ;;
  lift (getitem json_data (u "messages")).

End Program.

(** [str(e)] where the class defines it. *)
Definition exn_str (e : exn) : option str :=
  match e with
  | JavaNotFoundException => Some JavaNotFoundException_str
  | _ => None
  end.

(** ** A regular-expression engine for a fragment of [re]

    Enough of Python's pattern language to run the patterns of this module
    and simple patterns of a user: literal characters, [.], the anchors
    [\A], [\Z], [^] and [$] (no flags), escaped punctuation and [\n], [\t],
    [\r], grouping with [(...)] and [(?:...)], alternation, and the
    repetitions [*], [+] and [?], greedy or lazy.  A pattern outside the
    fragment is refused like a malformed one; the theorems about the
    validator do not depend on this engine. *)
Module MiniRe.

Inductive rx : Type :=
| Eps
| Lit (c : char)
| AnyChar                     (* [.]: any character but a line feed *)
| Bos                         (* [\A] and [^] *)
| Eos                         (* [\Z] *)
| Eol                         (* [$]: at the end, or before a final line feed *)
| Seq (a b : rx)
| Alt (a b : rx)
| Star (a : rx).

(** Backtracking matcher: [k] is what must match after [r]; [bos] tells
    whether the position is the start of the text.  A repetition gives up
    an iteration that consumes nothing. *)
Fixpoint run (r : rx) (k : bool -> str -> bool) (bos : bool) (s : str)
  {struct r} : bool :=
  match r with
  | Eps => k bos s
  | Lit c =>
      match s with
      | x :: s' => N.eqb x c && k false s'
      | [] => false
      end
  | AnyChar =>
      match s with
      | x :: s' => negb (N.eqb x LF) && k false s'
      | [] => false
      end
  | Bos => bos && k bos s
  | Eos => match s with [] => k bos s | _ :: _ => false end
  | Eol =>
      match s with
      | [] => k bos s
      | [x] => N.eqb x LF && k bos s
      | _ :: _ :: _ => false
      end
  | Seq a b => run a (run b k) bos s
  | Alt a b => run a k bos s || run b k bos s
  | Star a =>
      (fix loop (n : nat) (bos : bool) (s : str) {struct n} : bool :=
         k bos s ||
         match n with
         | O => false
         | S n' =>
             run a (fun bos' s' =>
                      (length s' <? length s) && loop n' bos' s') bos s
         end) (length s) bos s
  end.

Definition accept (_ : bool) (_ : str) : bool := true.

(** [regex.match(s)]: a match that starts at the start. *)
Definition match_here (r : rx) (bos : bool) (s : str) : bool :=
  run r accept bos s.

(** [regex.search(s)]: a match that starts anywhere. *)
Fixpoint search_from (r : rx) (bos : bool) (s : str) : bool :=
  match_here r bos s ||
  match s with
  | [] => false
  | _ :: s' => search_from r false s'
  end.

Definition search (r : rx) (s : str) : bool := search_from r true s.

(** *** Parsing a pattern *)

Definition is_quantifier (c : char) : bool :=
  existsb (N.eqb c) [42; 43; 63]%N.               (* * + ? *)

Definition is_alnum (c : char) : bool :=
  between 48 57 c || between 65 90 c || between 97 122 c.

(** The meaning of the character after a backslash. *)
Definition escape (c : char) : option rx :=
  if N.eqb c 65%N then Some Bos                    (* \A *)
  else if N.eqb c 90%N then Some Eos               (* \Z *)
  else if N.eqb c 110%N then Some (Lit 10%N)         (* \n *)
  else if N.eqb c 116%N then Some (Lit 9%N)          (* \t *)
  else if N.eqb c 114%N then Some (Lit 13%N)         (* \r *)
  else if is_alnum c || (127 <? c)%N then None
  else Some (Lit c).

Definition quantify (q : char) (a : rx) : rx :=
  if N.eqb q 42 then Star a
  else if N.eqb q 43 then Seq a (Star a)
  else Alt a Eps.

Definition is_anchor (a : rx) : bool :=
  match a with
  | Bos | Eos | Eol => true
  | _ => false
  end.

(** A repetition mark after an atom, with its optional lazy mark; a
    second repetition mark is an error, and so is the repetition of an
    anchor. *)
Definition parse_quantifier (a : rx) (s : str) : option (rx * str) :=
  match s with
  | q :: s' =>
      if is_quantifier q then
        if is_anchor a then None else
        let s'' := match s' with
                   | l :: t => if N.eqb l 63 then t else s'
                   | [] => s'
                   end in
        match s'' with
        | q' :: _ => if is_quantifier q' then None
                     else Some (quantify q a, s'')
        | [] => Some (quantify q a, s'')
        end
      else Some (a, s)
  | [] => Some (a, s)
  end.

Fixpoint parse_alt (fuel : nat) (s : str) : option (rx * str) :=
  match fuel with
  | O => None
  | S fuel' =>
      match parse_seq fuel' s with
      | Some (a, c :: s') =>
          if N.eqb c 124 then                      (* | *)
            match parse_alt fuel' s' with
            | Some (b, s'') => Some (Alt a b, s'')
            | None => None
            end
          else Some (a, c :: s')
      | r => r
      end
  end

with parse_seq (fuel : nat) (s : str) : option (rx * str) :=
  match fuel with
  | O => None
  | S fuel' =>
      match s with
      | [] => Some (Eps, s)
      | c :: _ =>
          if N.eqb c 124 || N.eqb c 41 then Some (Eps, s)   (* | ) *)
          else
            match parse_atom fuel' s with
            | Some (a, s') =>
                match parse_quantifier a s' with
                | Some (a', s'') =>
                    match parse_seq fuel' s'' with
                    | Some (b, s3) => Some (Seq a' b, s3)
                    | None => None
                    end
                | None => None
                end
            | None => None
            end
      end
  end

with parse_atom (fuel : nat) (s : str) : option (rx * str) :=
  match fuel with
  | O => None
  | S fuel' =>
      match s with
      | [] => None
      | c :: s' =>
          if N.eqb c 40 then                       (* ( *)
            let body := match s' with
                        | q :: col :: t =>
                            if N.eqb q 63 then
                              if N.eqb col 58 then Some t else None
                            else Some s'
                        | _ => Some s'
                        end in
            match body with
            | None => None
            | Some b =>
                match parse_alt fuel' b with
                | Some (a, c' :: s'') =>
                    if N.eqb c' 41 then Some (a, s'') else None
                | _ => None
                end
            end
          else if N.eqb c 92 then                  (* \ *)
            match s' with
            | e :: s'' =>
                match escape e with
                | Some a => Some (a, s'')
                | None => None
                end
            | [] => None
            end
          else if N.eqb c 46 then Some (AnyChar, s')
          else if N.eqb c 94 then Some (Bos, s')
          else if N.eqb c 36 then Some (Eol, s')
          else if is_quantifier c || N.eqb c 91 || N.eqb c 123 then None
          else Some (Lit c, s')
      end
  end.

Definition compile (p : str) : option rx :=
  match parse_alt (3 * length p + 3) p with
  | Some (r, []) => Some r
  | _ => None
  end.

Definition lib : ReLib :=
  {| re_pattern := rx; re_compile := compile; re_search := search |}.

End MiniRe.

(** ** Glob patterns of literal characters, [?] and [*]

    [fnmatch] on a POSIX system, where names are compared as they are.  A
    bracket is taken as a literal character, which [fnmatch] does only when
    no closing bracket follows it. *)
Module Glob.

Fixpoint matches (pattern name : str) {struct pattern} : bool :=
  match pattern with
  | [] => negb (truthy name)
  | c :: pattern' =>
      if N.eqb c 42 then                           (* * *)
        (fix star (name : str) : bool :=
           matches pattern' name ||
           match name with
           | [] => false
           | _ :: name' => star name'
           end) name
      else
        match name with
        | [] => false
        | x :: name' =>
            (N.eqb c 63 || N.eqb x c) && matches pattern' name'   (* ? *)
        end
  end.

Definition lib : FnmatchLib := {| fnmatch_match := matches |}.

End Glob.

(** ** A JSON reader for a fragment of [json.loads]

    Objects, arrays, strings with the single-character escapes, integers
    and the three literals, with white space between tokens.  Numbers with
    a fraction or an exponent and [\u] escapes are outside the fragment and
    refused.  In an object the last value given for a key is the key's
    value, as in the dict Python builds. *)
Module MiniJson.

Definition is_ws (c : char) : bool := existsb (N.eqb c) [32; 9; 10; 13]%N.

Fixpoint skip_ws (s : str) : str :=
  match s with
  | c :: s' => if is_ws c then skip_ws s' else s
  | [] => []
  end.

Definition unescape (c : char) : option char :=
  if N.eqb c 34 then Some 34%N
  else if N.eqb c 92 then Some 92%N
  else if N.eqb c 47 then Some 47%N
  else if N.eqb c 98 then Some 8%N
  else if N.eqb c 102 then Some 12%N
  else if N.eqb c 110 then Some 10%N
  else if N.eqb c 114 then Some 13%N
  else if N.eqb c 116 then Some 9%N
  else None.

(** The characters of a string after its opening quote, and what follows
    the closing quote. *)
Fixpoint read_string (s : str) : option (str * str) :=
  match s with
  | [] => None
  | c :: s' =>
      if N.eqb c 34 then Some ([], s')
      else if N.eqb c 92 then
        match s' with
        | e :: s'' =>
            match unescape e, read_string s'' with
            | Some x, Some (r, rest) => Some (x :: r, rest)
            | _, _ => None
            end
        | [] => None
        end
      else if (c <? 32)%N then None
      else
        match read_string s' with
        | Some (r, rest) => Some (c :: r, rest)
        | None => None
        end
  end.

Definition is_digit (c : char) : bool := between 48 57 c.

Fixpoint read_digits (acc : Z) (s : str) : Z * str :=
  match s with
  | c :: s' =>
      if is_digit c then read_digits (acc * 10 + Z.of_N (c - 48)) s'
      else (acc, s)
  | [] => (acc, [])
  end.

(** An integer: an optional minus sign, then [0] or digits that do not
    start with [0]. *)
Definition read_int (s : str) : option (Z * str) :=
  let '(neg, s1) := match s with
                    | c :: s' => if N.eqb c 45 then (true, s') else (false, s)
                    | [] => (false, s)
                    end in
  match s1 with
  | d :: s2 =>
      if is_digit d then
        let '(n, rest) := if N.eqb d 48 then (0%Z, s2) else read_digits 0 s1 in
        match rest with
        | c :: _ =>
            if is_digit c || existsb (N.eqb c) [46; 101; 69]%N then None
            else Some (if neg then (- n)%Z else n, rest)
        | [] => Some (if neg then (- n)%Z else n, rest)
        end
      else None
  | [] => None
  end.

(** [d[k] = v] on the members of a dict. *)
Fixpoint dict_set (k : str) (v : json) (members : list (str * json))
  : list (str * json) :=
  match members with
  | [] => [(k, v)]
  | (k', v') :: m' =>
      if Str.eqb k' k then (k', v) :: m' else (k', v') :: dict_set k v m'
  end.

Definition expect (lit : str) (v : json) (s : str) : option (json * str) :=
  if startswith lit s then Some (v, skipn (length lit) s) else None.

Fixpoint read_value (fuel : nat) (s : str) : option (json * str) :=
  match fuel with
  | O => None
  | S fuel' =>
      match skip_ws s with
      | [] => None
      | c :: s' =>
          if N.eqb c 110 then expect (u "null") JNull (c :: s')
          else if N.eqb c 116 then expect (u "true") (JBool true) (c :: s')
          else if N.eqb c 102 then expect (u "false") (JBool false) (c :: s')
          else if N.eqb c 34 then
            match read_string s' with
            | Some (r, rest) => Some (JStr r, rest)
            | None => None
            end
          else if N.eqb c 91 then                  (* [ *)
            match skip_ws s' with
            | d :: s'' =>
                if N.eqb d 93 then Some (JList [], s'')
                else
                  match read_items fuel' s' with
                  | Some (items, rest) => Some (JList items, rest)
                  | None => None
                  end
            | [] => None
            end
          else if N.eqb c 123 then                 (* { *)
            match skip_ws s' with
            | d :: s'' =>
                if N.eqb d 125 then Some (JDict [], s'')
                else
                  match read_members fuel' [] s' with
                  | Some (members, rest) => Some (JDict members, rest)
                  | None => None
                  end
            | [] => None
            end
          else
            match read_int (c :: s') with
            | Some (n, rest) => Some (JInt n, rest)
            | None => None
            end
      end
  end

(** The items of an array up to its closing bracket. *)
with read_items (fuel : nat) (s : str) : option (list json * str) :=
  match fuel with
  | O => None
  | S fuel' =>
      match read_value fuel' s with
      | Some (v, rest) =>
          match skip_ws rest with
          | c :: rest' =>
              if N.eqb c 93 then Some ([v], rest')
              else if N.eqb c 44 then
                match read_items fuel' rest' with
                | Some (vs, rest'') => Some (v :: vs, rest'')
                | None => None
                end
              else None
          | [] => None
          end
      | None => None
      end
  end

(** The members of an object up to its closing brace. *)
with read_members (fuel : nat) (acc : list (str * json)) (s : str)
  : option (list (str * json) * str) :=
  match fuel with
  | O => None
  | S fuel' =>
      match skip_ws s with
      | q :: s1 =>
          if N.eqb q 34 then
            match read_string s1 with
            | Some (k, s2) =>
                match skip_ws s2 with
                | col :: s3 =>
                    if N.eqb col 58 then
                      match read_value fuel' s3 with
                      | Some (v, s4) =>
                          let acc' := dict_set k v acc in
                          match skip_ws s4 with
                          | c :: s5 =>
                              if N.eqb c 125 then Some (acc', s5)
                              else if N.eqb c 44
                              then read_members fuel' acc' s5
                              else None
                          | [] => None
                          end
                      | None => None
                      end
                    else None
                | [] => None
                end
            | None => None
            end
          else None
      | [] => None
      end
  end.

Definition loads (s : str) : option json :=
  match read_value (2 * length s + 2) s with
  | Some (v, rest) =>
      match skip_ws rest with
      | [] => Some v
      | _ :: _ => None
      end
  | None => None
  end.

Definition lib : JsonLib := {| json_loads := loads |}.

End MiniJson.

(** * The vocabulary of the properties *)

(** What [_normalize_string] does to one character. *)
Definition normalize_char (c : char) : char :=
  if N.eqb c ldquo then dquote else if N.eqb c rdquo then dquote else c.

(** A line is hit by a list of literals when one of them occurs in it. *)
Definition hit_by_literal (literals : list str) (l : str) : bool :=
  existsb (fun i => contains i l) literals.

(** The non-empty lines of a diagnostic text. *)
Definition nonempty_lines (text : str) : list str :=
  filter truthy (splitlines text).

(** The test of [validate] for putting the envelope lines in place of the
    literal ignore list. *)
Definition xml_override (self : Validator) (e : list str) : bool :=
  opt_is (u "xml") (format self) && (length e <? 4).

(** The object once the test has been acted on. *)
Definition after_override (self : Validator) (e : list str) : Validator :=
  if xml_override self e then set_ignore DEFAULT_IGNORE_XML self else self.

(** The world once one more command line has been tried. *)
Definition logged (w : World) (cmd : list str) : World :=
  {| attempts := attempts w ++ [cmd] |}.

(** The format the engine is run with: the override of the caller, or
    else the configured format. *)
Definition resolved_format (self : Validator) (fmt : option str)
  : option str :=
  match fmt with
  | Some f => Some f
  | None => format self
  end.

(** The same validator with other ignore rules. *)
Definition with_rules (literals patterns : list str) (v : Validator)
  : Validator :=
  {| ignore := literals; ignore_re := patterns; stack_size := stack_size v;
     errors_only := errors_only v; detect_language := detect_language v;
     format := format v; vnu_args := vnu_args v;
     vnu_jar_location := vnu_jar_location v |}.

(** In a directory of a file system no two entries have the same name. *)
Fixpoint nodupb (l : list str) : bool :=
  match l with
  | [] => true
  | x :: l' => negb (mem x l') && nodupb l'
  end.

Fixpoint unique_names (t : tree) : bool :=
  match t with
  | Dir dirs _ =>
      nodupb (List.map fst dirs)
      && forallb (fun d => unique_names (snd d)) dirs
  end.

(** The directory reached from [t] through the names [rel]. *)
Fixpoint dir_at (t : tree) (rel : list str) : option tree :=
  match rel with
  | [] => Some t
  | name :: rel' =>
      match lookup name (subdirs t) with
      | Some sub => dir_at sub rel'
      | None => None
      end
  end.

(** [blacklist=None] stands for no name. *)
Definition blacklist_of (blacklist : option (list str)) : list str :=
  match blacklist with Some b => b | None => [] end.

(** The tree without the directories that have a name of the blacklist,
    at any depth, and so without all that lies beneath them. *)
Fixpoint erase (blacklist : list str) (t : tree) : tree :=
  match t with
  | Dir dirs nondirs =>
      Dir (flat_map (fun d => if mem (fst d) blacklist then []
                              else [(fst d, erase blacklist (snd d))]) dirs)
          nondirs
  end.

Section Rules.

Context {re : ReLib} {js : JsonLib}.
Variable host : Host.

(** All the patterns compiled, when each of them compiles. *)
Fixpoint compile_all (patterns : list str) : option (list re_pattern) :=
  match patterns with
  | [] => Some []
  | i :: patterns' =>
      match re_compile i, compile_all patterns' with
      | Some r, Some rs => Some (r :: rs)
      | _, _ => None
      end
  end.

(** A line is hit by a list of compiled patterns when one of them finds a
    match in it. *)
Definition hit_by_pattern (regexes : list re_pattern) (l : str) : bool :=
  existsb (fun regex => re_search regex l) regexes.

(** A line is kept when it is not empty, no literal occurs in it and no
    regular expression finds a match in it. *)
Definition kept (literals : list str) (regexes : list re_pattern)
    (l : str) : bool :=
  truthy l && negb (hit_by_literal literals l)
  && negb (hit_by_pattern regexes l).

(** The validators a program can hold: one that was constructed, then
    used for any number of calls. *)
Inductive reachable : Validator -> Prop :=
| reach_init ig igre eo dl fmt ss va s v s' :
    __init__ host ig igre eo dl fmt ss va s = (Ok v, s') ->
    reachable v
| reach_validate v files w r v' w' :
    reachable v ->
    validate host files (v, w) = (r, (v', w')) ->
    reachable v'
| reach_get_messages v files w r v' w' :
    reachable v ->
    get_messages host files (v, w) = (r, (v', w')) ->
    reachable v'.

(** The engine of regular expressions treats the built-in pattern as
    Python does: it compiles, and finds a match in every text that begins
    with the all-clear words. *)
Definition finds_all_clear : Prop :=
  exists regex,
    re_compile (u "\ADocument checking completed. No errors found.*")
    = Some regex /\
    forall l, startswith all_clear_words l = true -> re_search regex l = true.

End Rules.

(** What a one-character item of a pattern accepts. *)
Definition accepts_char (r : MiniRe.rx) (c : char) : bool :=
  match r with
  | MiniRe.Lit x => N.eqb c x
  | MiniRe.AnyChar => negb (N.eqb c LF)
  | _ => false
  end.

(** The item a character of the all-clear words stands for in the built-in
    pattern. *)
Definition item_of (c : char) : MiniRe.rx :=
  if N.eqb c dot then MiniRe.AnyChar else MiniRe.Lit c.

(** ** Hosts for the examples *)

Module Example.

(** [s.encode('utf-8')] *)
Definition byte_of (n : N) : Byte.byte :=
  match Byte.of_N n with
  | Some b => b
  | None => Byte.x00
  end.

Definition encode_char (c : char) : bytes :=
  List.map byte_of
    (if (c <? 128)%N then [c]
     else if (c <? 2048)%N then [192 + c / 64; 128 + c mod 64]
     else if (c <? 65536)%N
     then [224 + c / 4096; 128 + (c / 64) mod 64; 128 + c mod 64]
     else [240 + c / 262144; 128 + (c / 4096) mod 64;
           128 + (c / 64) mod 64; 128 + c mod 64])%N.

Definition encode (s : str) : bytes := flat_map encode_char s.

(** Lines joined into a text, each with its line feed. *)
Definition text_of (lines : list str) : str :=
  flat_map (fun l => l ++ [LF]) lines.

(** A Linux host on which the [n]-th process launched is the engine and
    writes the [n]-th of [outputs] to its error stream; once they are
    used up no program is found any more. *)
Definition linux (outputs : list str) : Host :=
  {| sys_platform := u "linux";
     vnujar_file := u "/usr/lib/python3/site-packages/vnujar/__init__.py";
     os_errno := false;
     spawn := fun n _ =>
                match nth_error outputs n with
                | Some out => Exited 0 [] (encode out)
                | None => LaunchRaised (OSError (Some ENOENT))
                end |}.

(** A host on which every launch raises [e], under a Python from 3.7
    on. *)
Definition failing (e : exn) : Host :=
  {| sys_platform := u "linux";
     vnujar_file := u "/usr/lib/python3/site-packages/vnujar/__init__.py";
     os_errno := false;
     spawn := fun _ _ => LaunchRaised e |}.

(** The same host under a Python up to 3.6, where [os.errno] is the
    module [errno]. *)
Definition failing_with_os_errno (e : exn) : Host :=
  {| sys_platform := u "linux";
     vnujar_file := u "/usr/lib/python3.6/site-packages/vnujar/__init__.py";
     os_errno := true;
     spawn := fun _ _ => LaunchRaised e |}.

Definition fresh : World := {| attempts := [] |}.

End Example.

Module Scenario.

Import Example.

Definition jar : str := u "/usr/lib/python3/site-packages/vnujar/vnu.jar".
Definition files : list str := [u "site/index.html"].

Definition configured (literals patterns : list str) (fmt : option str)
  : Validator :=
  {| ignore := literals; ignore_re := patterns; stack_size := None;
     errors_only := false; detect_language := true; format := fmt;
     vnu_args := None; vnu_jar_location := jar |}.

(** [Validator(ignore=['foo'], format='xml')] *)
Definition xml_validator : Validator :=
  configured ([u "foo"] ++ DEFAULT_IGNORE) DEFAULT_IGNORE_RE (Some (u "xml")).

(** An XML report with two findings. *)
Definition xml_findings : list str :=
  [ u "<?xml version='1.0' encoding='utf-8'?>";
    u "<messages xmlns=" ++ dquote :: u "http://n.validator.nu/messages/"
      ++ dquote :: u ">";
    u "<error url='a.html'><message>Element foo not allowed</message></error>";
    u "<error url='a.html'><message>Stray end tag</message></error>";
    u "</messages>" ].

(** The engine first reports a clean run, then the two findings. *)
Definition clean_then_findings : Host :=
  linux [text_of clean_xml_report; text_of xml_findings].

Definition after_one_run (v : Validator) (fmt : option str) : World :=
  {| attempts := [command v files fmt] |}.

(** [Validator(ignore=['foo'], ignore_re=['ba+r'])] on a text report. *)
Definition text_validator : Validator :=
  configured ([u "foo"] ++ DEFAULT_IGNORE) ([u "ba+r"] ++ DEFAULT_IGNORE_RE)
             None.

Definition text_report : list str :=
  [ u "a.html:1.1-1.5: error: Element foo not allowed";
    [];
    u "a.html:2.1-2.5: info warning: baar";
    u "a.html:3.1-3.5: error: Stray end tag";
    u "Document checking completed. No errors found." ].

Definition text_host : Host := linux [text_of text_report].

Definition text_regexes : list MiniRe.rx :=
  match @compile_all MiniRe.lib (ignore_re text_validator) with
  | Some rs => rs
  | None => []
  end.

(** The validator made with the one literal [lang] between typographic
    quotes, once constructed. *)
Definition lang_validator : Validator :=
  configured ([dquote :: u "lang" ++ [dquote]] ++ DEFAULT_IGNORE)
             DEFAULT_IGNORE_RE None.

(** [shared = ['x']]: one list of the caller, alone in the store; and the
    same entries held by two lists. *)
Definition one_list : Lists := [[u "x"]].
Definition two_lists : Lists := [[u "x"]; [u "x"]].

(** The entry, the built-in pattern, the built-in literal. *)
Definition mixed_rules : list str :=
  [u "x"] ++ DEFAULT_IGNORE_RE ++ DEFAULT_IGNORE.

(** [Validator(format='json')] and a JSON report whose message quotes an
    element name with typographic quotes. *)
Definition json_validator : Validator :=
  configured DEFAULT_IGNORE DEFAULT_IGNORE_RE (Some (u "json")).

Definition json_report : str :=
  u "{" ++ dquote :: u "messages" ++ dquote :: u ":[{" ++ dquote :: u "type"
    ++ dquote :: u ":" ++ dquote :: u "error" ++ dquote :: u ","
    ++ dquote :: u "message" ++ dquote :: u ":" ++ dquote
    :: u "Element " ++ ldquo :: u "foo" ++ rdquo :: u " not allowed"
    ++ dquote :: u "},{" ++ dquote :: u "type" ++ dquote :: u ":"
    ++ dquote :: u "info" ++ dquote :: u "}]}" ++ [LF].

Definition json_host : Host := linux [json_report].

(** A site with a vendored directory and a hidden one. *)
Definition site : tree :=
  Dir [ (u "node_modules", Dir [ (u "lib", Dir [] [u "deep.html"]) ]
                               [u "vendored.html"]);
        (u "docs", Dir [ (u ".git", Dir [] [u "config.html"]);
                         (u "node_modules", Dir [] [u "other.html"]) ]
                       [u "index.html"; u ".draft.html"; u "notes.txt"]) ]
      [u "index.html"; u "README"].

End Scenario.

Import Scenario.

(** The two messages of the JSON report, in their order, with the
    typographic quotes of the engine. *)
Definition json_report_messages : list json :=
  [ JDict [ (u "type", JStr (u "error"));
            (u "message",
             JStr (u "Element " ++ ldquo :: u "foo" ++ rdquo
                     :: u " not allowed")) ];
    JDict [ (u "type", JStr (u "info")) ] ].

(** The command line of [_cygwin_path_convert] for one path. *)
Definition cygpath_command (filepath : str) : list str :=
  [u "cygpath"; u "-w"; filepath].

(** The same validator configured with another format. *)
Definition with_format (fmt : option str) (v : Validator) : Validator :=
  {| ignore := ignore v; ignore_re := ignore_re v;
     stack_size := stack_size v; errors_only := errors_only v;
     detect_language := detect_language v; format := fmt;
     vnu_args := vnu_args v; vnu_jar_location := vnu_jar_location v |}.

(** [vnujar.__file__] with the name of the archive in place of the name of
    the module file. *)
Definition jar_beside (host : Host) : str :=
  replace (u "__init__.py") (u "vnu.jar")
    (replace (u "__init__.pyc") (u "vnu.jar") (vnujar_file host)).

(** The store once the constructor has extended the lists it was given:
    first the object bound to [ignore_re], then the one bound to
    [ignore]. *)
Definition lists_after (h : Lists) (ig igre : option ref) : Lists :=
  fst (extend_bound
         (fst (extend_bound h (arg_or_empty h igre) DEFAULT_IGNORE_RE))
         (arg_or_empty h ig) DEFAULT_IGNORE).

(** The lists the two comprehensions read. *)
Definition read_ignore (h : Lists) (ig igre : option ref) : list str :=
  let h1 := fst (extend_bound h (arg_or_empty h igre) DEFAULT_IGNORE_RE) in
  let '(h2, b) := extend_bound h1 (arg_or_empty h ig) DEFAULT_IGNORE in
  contents h2 b.

Definition read_ignore_re (h : Lists) (ig igre : option ref) : list str :=
  let '(h1, b) := extend_bound h (arg_or_empty h igre) DEFAULT_IGNORE_RE in
  contents (fst (extend_bound h1 (arg_or_empty h ig) DEFAULT_IGNORE)) b.

(** The list given for an argument, as the caller sees it before the
    call. *)
Definition given (h : Lists) (arg : option ref) : list str :=
  or_empty (option_map (deref h) arg).

(** The two arguments are one list object. *)
Definition same_object (ig igre : option ref) : bool :=
  match ig, igre with
  | Some a, Some b => Nat.eqb a b
  | _, _ => false
  end.

(** The validator [__init__] builds from its arguments once the location
    of the archive is known. *)
Definition constructed (h : Lists) (ig igre : option ref) (eo dl : bool)
    (fmt : option str) (ss : option Z) (va : option (list str))
    (location : str) : Validator :=
  {| ignore := List.map _normalize_string (read_ignore h ig igre);
     ignore_re := List.map _normalize_string (read_ignore_re h ig igre);
     stack_size := ss; errors_only := eo; detect_language := dl;
     format := fmt; vnu_args := va; vnu_jar_location := location |}.

(** No directory and no other entry of the tree has the empty name. *)
Fixpoint names_nonempty (t : tree) : bool :=
  match t with
  | Dir dirs nondirs =>
      forallb (fun d => truthy (fst d)) dirs && forallb truthy nondirs
      && forallb (fun d => names_nonempty (snd d)) dirs
  end.

(** ** Further worked cases *)

Module MoreCases.

Import Example Scenario.

(** A host on which the engine exits with the status [rc] after writing
    [out] and [err]. *)
Definition exits (rc : Z) (out err : bytes) : Host :=
  {| sys_platform := u "linux";
     vnujar_file := u "/usr/lib/python3/site-packages/vnujar/__init__.py";
     os_errno := false;
     spawn := fun _ _ => Exited rc out err |}.

(** A cygwin host: [cygpath] answers with a Windows path, except for the
    path [missing.html], on which it exits with 1; any other program is the
    engine and writes [report]. *)
Definition cygwin (report : str) : Host :=
  {| sys_platform := u "cygwin";
     vnujar_file := u "/usr/lib/python3/site-packages/vnujar/__init__.pyc";
     os_errno := false;
     spawn := fun _ cmd =>
                match cmd with
                | [prog; _; path] =>
                    if Str.eqb prog (u "cygpath") then
                      if Str.eqb path (u "missing.html")
                      then Exited 1 (encode (u "cygpath: no such file"))  []
                      else Exited 0 (encode (u "C:/cygwin64/" ++ path ++ [LF]))
                                  []
                    else Exited 0 [] (encode report)
                | _ => Exited 0 [] (encode report)
                end |}.

Definition three_files : list str :=
  [u "index.html"; u "missing.html"; u "about.html"].

Definition two_files : list str := [u "index.html"; u "about.html"].

(** A text with two announcements of the Java runtime, the second on a
    last line without a line feed. *)
Definition announced : list str :=
  [ u "Picked up _JAVA_OPTIONS: -Xmx1g";
    u "a.html:1.1-1.5: error: Stray end tag" ].

Definition unterminated : str := u "Picked up JAVA_TOOL_OPTIONS: -Dx=y".

(** [Validator(ignore_re=['('])]: a pattern that does not compile. *)
Definition bad_pattern_validator : Validator :=
  configured DEFAULT_IGNORE ([u "("] ++ DEFAULT_IGNORE_RE) None.

Definition regexes_of (patterns : list str) : list MiniRe.rx :=
  match @compile_all MiniRe.lib patterns with
  | Some rs => rs
  | None => []
  end.

End MoreCases.

(** * Properties *)

(** ** Strings *)

Lemma eqb_str_eq (a b : str) : Str.eqb a b = true <-> a = b.
Proof.
  revert b; induction a as [|x a IH]; destruct b as [|y b]; simpl;
    try (split; [discriminate | congruence]); try tauto.
  rewrite andb_true_iff, N.eqb_eq, IH.
  split; [intros [-> ->]; reflexivity | intros H; inversion H; auto].
Qed.

Lemma eqb_str_refl (a : str) : Str.eqb a a = true.
Proof. apply eqb_str_eq; reflexivity. Qed.

Lemma startswith_app (p s : str) : startswith p (p ++ s) = true.
Proof.
  induction p as [|x p IH]; simpl; [reflexivity|].
  rewrite N.eqb_refl; exact IH.
Qed.

Lemma startswith_inv (p s : str) :
  startswith p s = true -> exists r, s = p ++ r.
Proof.
  revert s; induction p as [|x p IH]; intros s H.
  - exists s; reflexivity.
  - destruct s as [|y s]; [discriminate|]. simpl in H.
    apply andb_true_iff in H as [Hxy Hp]. apply N.eqb_eq in Hxy; subst y.
    destruct (IH _ Hp) as [r ->]. exists r; reflexivity.
Qed.

Lemma contains_startswith (p s : str) :
  startswith p s = true -> contains p s = true.
Proof. intros H; destruct s; simpl; rewrite H; reflexivity. Qed.

Lemma contains_app (a p b : str) : contains p (a ++ p ++ b) = true.
Proof.
  induction a as [|x a IH]; simpl.
  - apply contains_startswith, startswith_app.
  - rewrite IH; apply orb_true_r.
Qed.

Lemma contains_inv (p s : str) :
  contains p s = true -> exists a b, s = a ++ p ++ b.
Proof.
  induction s as [|x s IH]; simpl; intros H.
  - rewrite orb_false_r in H. destruct (startswith_inv _ _ H) as [r Hr].
    exists [], r; exact Hr.
  - apply orb_true_iff in H as [H|H].
    + destruct (startswith_inv _ _ H) as [r Hr]. exists [], r; exact Hr.
    + destruct (IH H) as (a & b & ->). exists (x :: a), b; reflexivity.
Qed.

(** Replacing one character by one character acts on each character. *)
Lemma replace_char (a b : char) (s : str) :
  replace [a] [b] s = List.map (fun c => if N.eqb c a then b else c) s.
Proof.
  unfold replace. induction s as [|c s IH]; [reflexivity|].
  cbn [replace_from startswith length Nat.sub List.map].
  rewrite (N.eqb_sym a c).
  destruct (N.eqb c a); destruct s; simpl; simpl in IH; rewrite ?IH; reflexivity.
Qed.

Lemma normalize_string_map (s : str) :
  _normalize_string s = List.map normalize_char s.
Proof.
  unfold _normalize_string. rewrite !replace_char, map_map.
  apply map_ext; intros c. unfold normalize_char.
  destruct (N.eqb c ldquo) eqn:E; [reflexivity|]. reflexivity.
Qed.

Lemma normalize_string_app (a b : str) :
  _normalize_string (a ++ b) = _normalize_string a ++ _normalize_string b.
Proof. rewrite !normalize_string_map; apply map_app. Qed.

Lemma normalize_char_plain (c : char) :
  normalize_char c <> ldquo /\ normalize_char c <> rdquo.
Proof.
  unfold normalize_char.
  destruct (N.eqb c ldquo) eqn:E1; [split; discriminate|].
  destruct (N.eqb c rdquo) eqn:E2; [split; discriminate|].
  apply N.eqb_neq in E1, E2; auto.
Qed.

Lemma normalize_string_plain (s : str) :
  Forall (fun c => c <> ldquo /\ c <> rdquo) (_normalize_string s).
Proof.
  rewrite normalize_string_map. apply Forall_forall; intros c Hc.
  apply in_map_iff in Hc as (c0 & <- & _). apply normalize_char_plain.
Qed.

Lemma normalize_char_id (c : char) :
  c <> ldquo -> c <> rdquo -> normalize_char c = c.
Proof.
  intros H1 H2. unfold normalize_char.
  apply N.eqb_neq in H1, H2. rewrite H1, H2; reflexivity.
Qed.

Lemma normalize_string_idem (s : str) :
  _normalize_string (_normalize_string s) = _normalize_string s.
Proof.
  rewrite !normalize_string_map, map_map. apply map_ext; intros c.
  destruct (normalize_char_plain c). apply normalize_char_id; assumption.
Qed.

(** ** The filtering loops *)

Lemma filter_filter {A} (p q : A -> bool) (l : list A) :
  filter p (filter q l) = filter (fun x => q x && p x) l.
Proof.
  induction l as [|x l IH]; simpl; [reflexivity|].
  destruct (q x); simpl; [destruct (p x)|]; rewrite IH; reflexivity.
Qed.

Lemma filter_id {A} (p : A -> bool) (l : list A) :
  Forall (fun x => p x = true) l -> filter p l = l.
Proof.
  induction 1 as [|x l Hx _ IH]; simpl; [reflexivity|].
  rewrite Hx, IH; reflexivity.
Qed.

Lemma filter_none {A} (p : A -> bool) (l : list A) :
  Forall (fun x => p x = false) l -> filter p l = [].
Proof.
  induction 1 as [|x l Hx _ IH]; simpl; [reflexivity|].
  rewrite Hx; exact IH.
Qed.

Lemma drop_literals_filter (literals e : list str) :
  drop_literals literals e
  = filter (fun l => negb (hit_by_literal literals l)) e.
Proof.
  unfold drop_literals, hit_by_literal.
  revert e; induction literals as [|i literals IH]; intros e; simpl.
  - symmetry; apply filter_id, Forall_forall; reflexivity.
  - rewrite IH, filter_filter. apply filter_ext; intros l.
    rewrite negb_orb; reflexivity.
Qed.

Section Filtering.

Context {re : ReLib}.

Lemma drop_patterns_filter {S} (patterns : list str) regexes
    (e : list str) (s : S) :
  compile_all patterns = Some regexes ->
  drop_patterns patterns e s
  = (Ok (filter (fun l => negb (hit_by_pattern regexes l)) e), s).
Proof.
  unfold drop_patterns, hit_by_pattern.
  revert regexes e; induction patterns as [|i patterns IH];
    intros regexes e H; simpl in H.
  - inversion H; subst; simpl. unfold ret. f_equal. f_equal.
    symmetry; apply filter_id, Forall_forall; reflexivity.
  - destruct (re_compile i) as [r|] eqn:Ei; [|discriminate].
    destruct (compile_all patterns) as [rs|] eqn:Ers; [|discriminate].
    inversion H; subst; clear H.
    cbn [foldM]. unfold bind at 1. rewrite Ei. unfold ret at 1.
    rewrite (IH rs _ eq_refl), filter_filter.
    f_equal. f_equal. apply filter_ext; intros l.
    simpl. rewrite negb_orb; reflexivity.
Qed.

(** When a pattern does not compile the loop raises, whatever the lines,
    and leaves the state alone. *)
Lemma drop_patterns_raises {S} (patterns : list str) (e : list str) (s : S) :
  compile_all patterns = None ->
  exists i, In i patterns /\ re_compile i = None
            /\ drop_patterns patterns e s = (Raise (ReError i), s).
Proof.
  unfold drop_patterns.
  revert e; induction patterns as [|i patterns IH]; intros e H;
    simpl in H; [discriminate|].
  cbn [foldM]. unfold bind at 1.
  destruct (re_compile i) as [r|] eqn:Ei.
  - destruct (compile_all patterns) as [rs|] eqn:Ers; [discriminate|].
    unfold ret at 1.
    destruct (IH (filter (fun l => negb (re_search r l)) e) eq_refl)
      as (j & Hj & Hc & Hr).
    exists j; repeat split; [right; exact Hj | exact Hc | exact Hr].
  - exists i; repeat split; [left; reflexivity | exact Ei].
Qed.

Lemma compile_all_Some (patterns : list str) :
  Forall (fun i => re_compile i <> None) patterns ->
  exists regexes, compile_all patterns = Some regexes.
Proof.
  induction 1 as [|i patterns Hi _ [rs IH]]; simpl.
  - exists []; reflexivity.
  - destruct (re_compile i) as [r|]; [|congruence].
    rewrite IH. exists (r :: rs); reflexivity.
Qed.

Lemma compile_all_In (patterns : list str) regexes i :
  compile_all patterns = Some regexes -> In i patterns ->
  exists r, re_compile i = Some r /\ In r regexes.
Proof.
  revert regexes; induction patterns as [|j patterns IH];
    intros regexes H Hi; simpl in *; [contradiction|].
  destruct (re_compile j) as [r|] eqn:Ej; [|discriminate].
  destruct (compile_all patterns) as [rs|]; [|discriminate].
  inversion H; subst; clear H.
  destruct Hi as [->|Hi].
  - exists r; split; [exact Ej | left; reflexivity].
  - destruct (IH rs eq_refl Hi) as (r' & Hr' & Hin).
    exists r'; split; [exact Hr' | right; exact Hin].
Qed.

End Filtering.

(** ** [validate] *)

Section Validate.

Context {re : ReLib} {js : JsonLib}.
Variable host : Host.

(** [validate] step by step, on the text the engine run returns. *)
Lemma remaining_lines_run (self : Validator) (files : list str) (w : World) :
  remaining_lines host files (self, w)
  = match _run_validator host self files None w with
    | (Raise x, w') => (Raise x, (self, w'))
    | (Ok text, w') =>
        let e := nonempty_lines text in
        let self' := after_override self e in
        drop_patterns (ignore_re self') (drop_literals (ignore self') e)
                      (self', w')
    end.
Proof.
  unfold remaining_lines, bind, get_self, in_world, put_self, ret,
    after_override, xml_override, nonempty_lines; simpl.
  destruct (_run_validator host self files None w) as [[text|x] w'];
    [|reflexivity].
  destruct (opt_is (u "xml") (format self)
            && (length (filter truthy (splitlines text)) <? 4));
    reflexivity.
Qed.

Lemma validate_run (self : Validator) (files : list str) (w : World) :
  validate host files (self, w)
  = match remaining_lines host files (self, w) with
    | (Ok e, s) => (Ok (length e), s)
    | (Raise x, s) => (Raise x, s)
    end.
Proof. reflexivity. Qed.

(** The pattern list is never assigned by [validate], and the literal
    list only by the override. *)
Lemma remaining_lines_self (self : Validator) files w r self' w' :
  remaining_lines host files (self, w) = (r, (self', w')) ->
  self' = self \/ self' = set_ignore DEFAULT_IGNORE_XML self.
Proof.
  rewrite remaining_lines_run.
  destruct (_run_validator host self files None w) as [[text|x] w1].
  - cbv zeta. intros H.
    destruct (compile_all (ignore_re (after_override self (nonempty_lines text))))
      as [rs|] eqn:E.
    + rewrite (drop_patterns_filter _ _ _ E) in H. inversion H; subst.
      unfold after_override; destruct (xml_override _ _); auto.
    + destruct (drop_patterns_raises _
                  (drop_literals
                     (ignore (after_override self (nonempty_lines text)))
                     (nonempty_lines text))
                  (after_override self (nonempty_lines text), w1) E)
        as (i & _ & _ & Hr).
      rewrite Hr in H. inversion H; subst.
      unfold after_override; destruct (xml_override _ _); auto.
  - intros H; inversion H; auto.
Qed.

Lemma validate_self (self : Validator) files w r self' w' :
  validate host files (self, w) = (r, (self', w')) ->
  self' = self \/ self' = set_ignore DEFAULT_IGNORE_XML self.
Proof.
  rewrite validate_run.
  destruct (remaining_lines host files (self, w)) as [[e|x] [s1 w1]] eqn:E;
    intros H; inversion H; subst;
    eapply remaining_lines_self; exact E.
Qed.

End Validate.

(** ** The count [validate] returns *)

Section Counting.

Context {re : ReLib}.
Variable host : Host.

Lemma remaining_lines_kept (self : Validator) files w text w' regexes :
  _run_validator host self files None w = (Ok text, w') ->
  compile_all (ignore_re self) = Some regexes ->
  remaining_lines host files (self, w)
  = (Ok (filter (kept (ignore (after_override self (nonempty_lines text)))
                      regexes) (splitlines text)),
     (after_override self (nonempty_lines text), w')).
Proof.
  intros Hrun Hre. rewrite remaining_lines_run, Hrun. cbv zeta.
  assert (Hre' : compile_all
                   (ignore_re (after_override self (nonempty_lines text)))
                 = Some regexes).
  { unfold after_override; destruct (xml_override _ _); exact Hre. }
  rewrite (drop_patterns_filter _ _ _ Hre'), drop_literals_filter.
  unfold nonempty_lines at 2. rewrite !filter_filter.
  f_equal. f_equal. apply filter_ext; intros l.
  unfold kept. rewrite andb_assoc; reflexivity.
Qed.

(** C5.  [validate] splits the diagnostic text into lines and returns the
    number of lines that are not empty, contain none of the active literal
    ignore strings as a substring, and in which none of the ignore regular
    expressions finds a match by search; the active literals are the
    stored list, or the envelope lines when the override applies.  The
    ignore patterns are regular expressions: each of them compiles. *)
Theorem validate_counts_kept_lines
    (self : Validator) files w text w' regexes :
  _run_validator host self files None w = (Ok text, w') ->
  compile_all (ignore_re self) = Some regexes ->
  let active := if xml_override self (nonempty_lines text)
                then DEFAULT_IGNORE_XML else ignore self in
  validate host files (self, w)
  = (Ok (length (filter (kept active regexes) (splitlines text))),
     (after_override self (nonempty_lines text), w')).
Proof.
  intros Hrun Hre active.
  rewrite validate_run, (remaining_lines_kept self files w Hrun Hre).
  unfold active, after_override.
  destruct (xml_override self (nonempty_lines text)); reflexivity.
Qed.

(** What [kept] says, line by line: substring containment for the
    literals, search for the patterns. *)
Lemma kept_spec (literals : list str) (regexes : list re_pattern) (l : str) :
  kept literals regexes l = true <->
  l <> [] /\
  (forall i, In i literals -> forall a b, l <> a ++ i ++ b) /\
  (forall r, In r regexes -> re_search r l = false).
Proof.
  unfold kept, hit_by_literal, hit_by_pattern.
  rewrite !andb_true_iff, !negb_true_iff. split.
  - intros [[Ht Hl] Hp]. repeat split.
    + destruct l; [discriminate | discriminate].
    + intros i Hi a b ->.
      assert (existsb (fun j => contains j (a ++ i ++ b)) literals = true).
      { apply existsb_exists. exists i; split; [exact Hi|].
        apply contains_app. }
      congruence.
    + intros r Hr. destruct (re_search r l) eqn:E; [|reflexivity].
      assert (existsb (fun regex => re_search regex l) regexes = true).
      { apply existsb_exists. exists r; auto. }
      congruence.
  - intros (Hne & Hl & Hp). repeat split.
    + destruct l; [contradiction | reflexivity].
    + destruct (existsb _ literals) eqn:E; [|reflexivity].
      apply existsb_exists in E as (i & Hi & Hc).
      apply contains_inv in Hc as (a & b & ->).
      exfalso; exact (Hl i Hi a b eq_refl).
    + destruct (existsb _ regexes) eqn:E; [|reflexivity].
      apply existsb_exists in E as (r & Hr & Hs).
      rewrite (Hp r Hr) in Hs; discriminate.
Qed.

(** When a pattern does not compile, [validate] raises [re.error]. *)
Lemma validate_bad_pattern (self : Validator) files w text w' :
  _run_validator host self files None w = (Ok text, w') ->
  compile_all (ignore_re self) = None ->
  exists i, In i (ignore_re self) /\ re_compile i = None /\
    validate host files (self, w)
    = (Raise (ReError i), (after_override self (nonempty_lines text), w')).
Proof.
  intros Hrun Hre. rewrite validate_run, remaining_lines_run, Hrun. cbv zeta.
  assert (Hre' : compile_all
                   (ignore_re (after_override self (nonempty_lines text)))
                 = None).
  { unfold after_override; destruct (xml_override _ _); exact Hre. }
  destruct (drop_patterns_raises _
              (drop_literals
                 (ignore (after_override self (nonempty_lines text)))
                 (nonempty_lines text))
              (after_override self (nonempty_lines text), w') Hre')
    as (i & Hi & Hc & Hr).
  exists i. rewrite Hr. repeat split; [|exact Hc].
  unfold after_override in Hi; destruct (xml_override _ _); exact Hi.
Qed.

(** C9.  On lines already filtered the filtering step changes nothing:
    when the lines are non-empty, no active literal occurs in any of them,
    and every active pattern is a regular expression that finds no match
    in any of them, the removal of empty lines, the literal loop and the
    pattern loop each return the list as it is. *)
Theorem filtering_fixes_filtered_lines {S}
    (literals patterns : list str) (e : list str) (s : S) :
  Forall (fun l => l <> []) e ->
  Forall (fun l => Forall (fun i => contains i l = false) literals) e ->
  Forall (fun i => exists regex, re_compile i = Some regex /\
                     Forall (fun l => re_search regex l = false) e)
         patterns ->
  filter truthy e = e /\
  drop_literals literals e = e /\
  drop_patterns patterns (drop_literals literals e) s = (Ok e, s).
Proof.
  intros Hne Hlit Hpat.
  assert (H1 : filter truthy e = e).
  { apply filter_id. eapply Forall_impl; [|exact Hne].
    intros [|c l] H; [contradiction | reflexivity]. }
  assert (H2 : drop_literals literals e = e).
  { rewrite drop_literals_filter. apply filter_id.
    eapply Forall_impl; [|exact Hlit]. intros l Hl. unfold hit_by_literal.
    destruct (existsb _ literals) eqn:E; [|reflexivity].
    apply existsb_exists in E as (i & Hi & Hc).
    rewrite Forall_forall in Hl. rewrite (Hl i Hi) in Hc; discriminate. }
  repeat split; [exact H1 | exact H2 |]. rewrite H2.
  destruct (compile_all_Some (patterns := patterns)) as [rs Hrs].
  { eapply Forall_impl; [|exact Hpat]. intros i (r & Hr & _); congruence. }
  rewrite (drop_patterns_filter _ _ _ Hrs). f_equal. f_equal.
  apply filter_id, Forall_forall. intros l Hl. unfold hit_by_pattern.
  destruct (existsb _ rs) eqn:E; [|reflexivity].
  apply existsb_exists in E as (r & Hr & Hs).
  (* [r] is the compiled form of one of the patterns *)
  clear - Hpat Hrs Hr Hs Hl. exfalso.
  revert rs Hrs Hr. induction Hpat as [|i patterns (r0 & Hc & Hno) _ IH];
    intros rs Hrs Hr; simpl in Hrs.
  - inversion Hrs; subst; contradiction.
  - rewrite Hc in Hrs.
    destruct (compile_all patterns) as [rs'|]; [|discriminate].
    inversion Hrs; subst. destruct Hr as [->|Hr].
    + rewrite Forall_forall in Hno. rewrite (Hno l Hl) in Hs; discriminate.
    + exact (IH rs' eq_refl Hr).
Qed.

(** Filtering twice is filtering once. *)
Lemma filtering_idempotent {S} (literals patterns : list str)
    (e e' : list str) (s : S) :
  drop_patterns patterns (drop_literals literals (filter truthy e)) s
  = (Ok e', s) ->
  drop_patterns patterns (drop_literals literals (filter truthy e')) s
  = (Ok e', s).
Proof.
  intros H. destruct (compile_all patterns) as [rs|] eqn:Hrs.
  - rewrite (drop_patterns_filter _ _ _ Hrs), drop_literals_filter in H.
    rewrite (drop_patterns_filter _ _ _ Hrs), drop_literals_filter.
    inversion H as [He]. f_equal. f_equal. rewrite !filter_filter.
    apply filter_ext; intros l.
    destruct (truthy l), (hit_by_literal literals l), (hit_by_pattern rs l);
      reflexivity.
  - destruct (drop_patterns_raises _
                (drop_literals literals (filter truthy e)) s Hrs)
      as (i & _ & _ & Hr).
    rewrite Hr in H; discriminate.
Qed.

(** Each envelope line contains one of the envelope literals. *)
Lemma envelope_lines_dropped :
  drop_literals DEFAULT_IGNORE_XML clean_xml_report = [].
Proof. vm_compute. reflexivity. Qed.

(** C3.  With the format ['xml'], when the non-empty lines of the
    diagnostic text are exactly the three lines of the clean envelope,
    [validate] returns 0 (the ignore patterns being regular
    expressions). *)
Theorem validate_clean_xml_is_zero (self : Validator) files w text w' :
  format self = Some (u "xml") ->
  _run_validator host self files None w = (Ok text, w') ->
  nonempty_lines text = clean_xml_report ->
  Forall (fun i => re_compile i <> None) (ignore_re self) ->
  fst (validate host files (self, w)) = Ok 0.
Proof.
  intros Hfmt Hrun Henv Hre.
  destruct (compile_all_Some Hre) as [rs Hrs].
  rewrite validate_run, remaining_lines_run, Hrun. cbv zeta.
  assert (Hov : after_override self (nonempty_lines text)
                = set_ignore DEFAULT_IGNORE_XML self).
  { unfold after_override, xml_override. rewrite Hfmt, Henv. reflexivity. }
  rewrite Hov. cbn [ignore ignore_re set_ignore].
  rewrite Henv, envelope_lines_dropped.
  rewrite (drop_patterns_filter _ _ _ Hrs). reflexivity.
Qed.

End Counting.

(** ** Construction and the life of the ignore lists *)

Section Lifecycle.

Context {re : ReLib} {js : JsonLib}.
Variable host : Host.

(** *** The list objects the constructor is given *)

Lemma deref_nil (r : ref) : deref [] r = [].
Proof. destruct r; reflexivity. Qed.

Lemma deref_extend_other (h : Lists) (r r' : ref) (more : list str) :
  r <> r' -> deref (extend h r more) r' = deref h r'.
Proof.
  unfold deref. revert r r'.
  induction h as [|l h IH]; intros [|r] [|r'] Hne; simpl;
    try reflexivity; try congruence.
  apply IH; congruence.
Qed.

Lemma deref_extend_same (h : Lists) (r : ref) (more : list str) :
  deref h r <> [] -> deref (extend h r more) r = deref h r ++ more.
Proof.
  unfold deref. revert r.
  induction h as [|l h IH]; intros [|r] Hne; simpl in *;
    try congruence; try reflexivity.
  apply IH; exact Hne.
Qed.

(** An argument is bound either to a new empty list (it was [None] or an
    empty list) or to the caller's own object. *)
Lemma arg_or_empty_cases (h : Lists) (arg : option ref) :
  (arg_or_empty h arg = Fresh [] /\ given h arg = []) \/
  (exists r, arg = Some r /\ arg_or_empty h arg = Caller r /\
             deref h r <> [] /\ given h arg = deref h r).
Proof.
  destruct arg as [r|]; [|left; split; reflexivity].
  unfold arg_or_empty, given; simpl.
  destruct (deref h r) as [|x l] eqn:E.
  - left; split; reflexivity.
  - right. exists r. rewrite E. repeat split; discriminate.
Qed.

(** The two lists read by the comprehensions when the arguments are two
    objects, or are empty: each is the list given followed by its own
    defaults. *)
Lemma read_lists_apart (h : Lists) (ig igre : option ref) :
  same_object ig igre = false \/ given h ig = [] ->
  read_ignore h ig igre = given h ig ++ DEFAULT_IGNORE /\
  read_ignore_re h ig igre = given h igre ++ DEFAULT_IGNORE_RE.
Proof.
  intros Hapart. unfold read_ignore, read_ignore_re.
  destruct (arg_or_empty_cases h ig) as [[Bi Gi]|(r & Ei & Bi & Ni & Gi)];
    destruct (arg_or_empty_cases h igre)
      as [[Br Gr]|(r' & Er & Br & Nr & Gr)];
    rewrite Bi, Br, Gi, Gr; cbn [extend_bound fst snd contents].
  - split; reflexivity.
  - split; [reflexivity|]. apply deref_extend_same; exact Nr.
  - split; [|reflexivity]. apply deref_extend_same; exact Ni.
  - assert (Hne : r <> r').
    { destruct Hapart as [Hs|He].
      - subst ig igre. simpl in Hs. apply Nat.eqb_neq in Hs; exact Hs.
      - rewrite Gi in He; contradiction. }
    split.
    + rewrite deref_extend_same.
      * rewrite deref_extend_other by congruence. reflexivity.
      * rewrite deref_extend_other by congruence. exact Ni.
    + rewrite deref_extend_other by exact Hne.
      apply deref_extend_same; exact Nr.
Qed.

(** When one list object that is not empty is given for both arguments,
    both comprehensions read that one object, extended first by the
    default pattern and then by the default literal. *)
Lemma read_lists_shared (h : Lists) (ig igre : option ref) :
  same_object ig igre = true -> given h ig <> [] ->
  read_ignore h ig igre
  = given h ig ++ DEFAULT_IGNORE_RE ++ DEFAULT_IGNORE /\
  read_ignore_re h ig igre
  = given h ig ++ DEFAULT_IGNORE_RE ++ DEFAULT_IGNORE.
Proof.
  intros Hs Hne.
  destruct ig as [r|]; [|discriminate]. destruct igre as [r'|]; [|discriminate].
  simpl in Hs. apply Nat.eqb_eq in Hs; subst r'.
  unfold read_ignore, read_ignore_re, given, arg_or_empty in *; simpl in *.
  destruct (deref h r) as [|x l] eqn:E; [contradiction|].
  cbn [extend_bound fst snd contents].
  assert (H1 : deref (extend h r DEFAULT_IGNORE_RE) r
               = (x :: l) ++ DEFAULT_IGNORE_RE).
  { rewrite deref_extend_same by (rewrite E; discriminate).
    rewrite E; reflexivity. }
  assert (H2 : deref (extend (extend h r DEFAULT_IGNORE_RE) r DEFAULT_IGNORE) r
               = ((x :: l) ++ DEFAULT_IGNORE_RE) ++ DEFAULT_IGNORE).
  { rewrite deref_extend_same by (rewrite H1; discriminate).
    rewrite H1; reflexivity. }
  rewrite H2, <- app_assoc. split; reflexivity.
Qed.

(** Whatever the arguments, the list read for the patterns contains the
    built-in pattern and the list read for the literals contains the
    built-in literal. *)
Lemma read_ignore_re_default (h : Lists) (ig igre : option ref) :
  incl DEFAULT_IGNORE_RE (read_ignore_re h ig igre).
Proof.
  intros p Hp.
  destruct (same_object ig igre) eqn:Hs.
  - destruct (given h ig) as [|x l] eqn:G.
    + destruct (@read_lists_apart h ig igre) as [_ ->]; [right; exact G|].
      apply in_or_app; right; exact Hp.
    + destruct (@read_lists_shared h ig igre Hs) as [_ ->];
        [rewrite G; discriminate|].
      apply in_or_app; right. apply in_or_app; left; exact Hp.
  - destruct (@read_lists_apart h ig igre) as [_ ->]; [left; exact Hs|].
    apply in_or_app; right; exact Hp.
Qed.

Lemma read_ignore_default (h : Lists) (ig igre : option ref) :
  incl DEFAULT_IGNORE (read_ignore h ig igre).
Proof.
  intros p Hp.
  destruct (same_object ig igre) eqn:Hs.
  - destruct (given h ig) as [|x l] eqn:G.
    + destruct (@read_lists_apart h ig igre) as [-> _]; [right; exact G|].
      apply in_or_app; right; exact Hp.
    + destruct (@read_lists_shared h ig igre Hs) as [-> _];
        [rewrite G; discriminate|].
      apply in_or_app; right. apply in_or_app; right; exact Hp.
  - destruct (@read_lists_apart h ig igre) as [-> _]; [left; exact Hs|].
    apply in_or_app; right; exact Hp.
Qed.

(** [__init__], step by step: the lists are extended in the store, then
    the path of the archive is converted where the platform asks for
    it. *)
Lemma init_steps ig igre eo dl fmt ss va (h : Lists) (w : World) :
  __init__ host ig igre eo dl fmt ss va (h, w)
  = match (if Str.eqb (sys_platform host) (u "cygwin")
           then _cygwin_path_convert host (jar_beside host)
           else ret (jar_beside host)) w with
    | (Ok location, w') =>
        (Ok (constructed h ig igre eo dl fmt ss va location),
         (lists_after h ig igre, w'))
    | (Raise x, w') => (Raise x, (lists_after h ig igre, w'))
    end.
Proof.
  unfold __init__, constructed, lists_after, read_ignore, read_ignore_re,
    jar_beside.
  cbn [fst snd].
  destruct (extend_bound h (arg_or_empty h igre) DEFAULT_IGNORE_RE)
    as [h1 b1].
  cbn [fst snd].
  destruct (extend_bound h1 (arg_or_empty h ig) DEFAULT_IGNORE) as [h2 b2].
  cbn [fst snd].
  unfold bind, beside_lists, ret. cbn [fst snd].
  destruct (if Str.eqb (sys_platform host) (u "cygwin") then _ else _)
    as [[location|x] w1]; reflexivity.
Qed.

Lemma init_fields ig igre eo dl fmt ss va h w v s' :
  __init__ host ig igre eo dl fmt ss va (h, w) = (Ok v, s') ->
  ignore v = List.map _normalize_string (read_ignore h ig igre) /\
  ignore_re v = List.map _normalize_string (read_ignore_re h ig igre) /\
  format v = fmt /\
  fst s' = lists_after h ig igre.
Proof.
  rewrite init_steps.
  destruct (if Str.eqb (sys_platform host) (u "cygwin") then _ else _)
    as [[location|x] w1]; intros H; inversion H; subst; clear H.
  repeat split.
Qed.

Lemma default_literals_plain :
  List.map _normalize_string DEFAULT_IGNORE = DEFAULT_IGNORE.
Proof. reflexivity. Qed.

Lemma default_patterns_plain :
  List.map _normalize_string DEFAULT_IGNORE_RE = DEFAULT_IGNORE_RE.
Proof. reflexivity. Qed.

(** X22.  When the two arguments are not one list object (or the lists are
    empty), a constructed validator has, as its literal ignore list, the
    literals given followed by the built-in literal, and as its pattern
    list the patterns given followed by the built-in pattern; in each
    entry every typographic double quote, opening or closing, has become
    the ASCII double quote and every other character is as it was (the
    built-in entries have none).  A literal given that occurs in a
    diagnostic line up to the kind of double quote removes the
    quote-normalized line. *)
Theorem init_lists_of_separate_arguments ig igre eo dl fmt ss va h w v s' :
  same_object ig igre = false \/ given h ig = [] ->
  __init__ host ig igre eo dl fmt ss va (h, w) = (Ok v, s') ->
  ignore v
  = List.map (List.map normalize_char) (given h ig) ++ DEFAULT_IGNORE /\
  ignore_re v
  = List.map (List.map normalize_char) (given h igre) ++ DEFAULT_IGNORE_RE /\
  normalize_char ldquo = dquote /\ normalize_char rdquo = dquote /\
  (forall c, c <> ldquo -> c <> rdquo -> normalize_char c = c) /\
  (forall i a m b,
      In i (given h ig) ->
      _normalize_string m = _normalize_string i ->
      drop_literals (ignore v) [_normalize_string (a ++ m ++ b)] = []).
Proof.
  intros Hapart H.
  destruct (init_fields _ _ _ _ _ _ _ _ _ H) as (Hi & Hr & _).
  destruct (read_lists_apart h ig igre Hapart) as [Ri Rr].
  rewrite Ri in Hi. rewrite Rr in Hr.
  repeat split.
  - rewrite Hi, map_app, default_literals_plain.
    rewrite (map_ext _ _ normalize_string_map); reflexivity.
  - rewrite Hr, map_app, default_patterns_plain.
    rewrite (map_ext _ _ normalize_string_map); reflexivity.
  - exact normalize_char_id.
  - intros i a m b Hin Hm.
    rewrite drop_literals_filter. apply filter_none.
    constructor; [|constructor].
    apply negb_false_iff. unfold hit_by_literal. apply existsb_exists.
    exists (_normalize_string i). split.
    + rewrite Hi. apply in_map, in_or_app; left; exact Hin.
    + rewrite !normalize_string_app, Hm. apply contains_app.
Qed.

(** X23.  When one list object that is not empty is given for both arguments,
    the literal list and the pattern list are the same: the entries given,
    the built-in pattern, then the built-in literal; and the caller's list
    has grown by the two built-in entries. *)
Theorem init_lists_of_one_argument ig igre eo dl fmt ss va h w v s' :
  same_object ig igre = true -> given h ig <> [] ->
  __init__ host ig igre eo dl fmt ss va (h, w) = (Ok v, s') ->
  ignore v
  = List.map _normalize_string
      (given h ig ++ DEFAULT_IGNORE_RE ++ DEFAULT_IGNORE) /\
  ignore_re v = ignore v /\
  given (fst s') ig = given h ig ++ DEFAULT_IGNORE_RE ++ DEFAULT_IGNORE.
Proof.
  intros Hs Hne H.
  destruct (init_fields _ _ _ _ _ _ _ _ _ H) as (Hi & Hr & _ & Hh).
  destruct (read_lists_shared h ig igre Hs Hne) as [Ri Rr].
  rewrite Ri in Hi. rewrite Rr in Hr.
  repeat split; [exact Hi|congruence|].
  rewrite Hh. clear - Hs Hne.
  destruct ig as [r|]; [|discriminate]. destruct igre as [r'|]; [|discriminate].
  simpl in Hs. apply Nat.eqb_eq in Hs; subst r'.
  unfold lists_after, given, arg_or_empty in *; simpl in *.
  destruct (deref h r) as [|x l] eqn:E; [contradiction|].
  cbn [extend_bound fst snd].
  rewrite deref_extend_same.
  - rewrite deref_extend_same by (rewrite E; discriminate).
    rewrite E, <- app_assoc; reflexivity.
  - rewrite deref_extend_same by (rewrite E; discriminate).
    rewrite E; discriminate.
Qed.

Lemma get_messages_self (self : Validator) files w r self' w' :
  get_messages host files (self, w) = (r, (self', w')) -> self' = self.
Proof.
  unfold get_messages, bind, get_self, in_world, lift; simpl.
  destruct (_run_validator host self files (Some (u "json")) w)
    as [[text|x] w1]; [|intros H; inversion H; reflexivity].
  destruct (json_loads text); intros H; inversion H; reflexivity.
Qed.

(** The pattern list never changes after construction, and the
    constructor puts the built-in pattern into it. *)
Lemma reachable_ignore_re (v : Validator) :
  reachable host v ->
  In (u "\ADocument checking completed. No errors found.*") (ignore_re v).
Proof.
  induction 1 as [ig igre eo dl fmt ss va [h w] v s' H
                 | v files w r v' w' _ IH H
                 | v files w r v' w' _ IH H].
  - destruct (init_fields _ _ _ _ _ _ _ _ _ H) as (_ & Hr & _).
    rewrite Hr.
    change (u "\ADocument checking completed. No errors found.*")
      with (_normalize_string
              (u "\ADocument checking completed. No errors found.*")).
    apply in_map, read_ignore_re_default. left; reflexivity.
  - apply validate_self in H. destruct H as [->| ->]; exact IH.
  - apply get_messages_self in H; subst; exact IH.
Qed.

(** C10.  Whatever the arguments of the constructor and whatever calls
    came before, the pattern list of a validator contains the built-in
    pattern for the all-clear line, and the lines a call of [validate]
    counts include no line that begins with the all-clear words. *)
Theorem all_clear_line_never_counted (v : Validator) :
  finds_all_clear ->
  reachable host v ->
  In (u "\ADocument checking completed. No errors found.*") (ignore_re v) /\
  forall files w n s,
    validate host files (v, w) = (Ok n, s) ->
    exists e, remaining_lines host files (v, w) = (Ok e, s) /\
              n = length e /\
              Forall (fun l => startswith all_clear_words l = false) e.
Proof.
  intros (regex & Hc & Hfind) Hv.
  assert (Hin : In (u "\ADocument checking completed. No errors found.*")
                   (ignore_re v)).
  { exact (reachable_ignore_re Hv). }
  split; [exact Hin|].
  intros files w n s Hval. rewrite validate_run in Hval.
  destruct (remaining_lines host files (v, w)) as [[e|x] s1] eqn:Hrem;
    inversion Hval; subst; clear Hval.
  exists e; repeat split.
  rewrite remaining_lines_run in Hrem.
  destruct (_run_validator host v files None w) as [[text|x] w1];
    [|discriminate]. cbv zeta in Hrem.
  set (v1 := after_override v (nonempty_lines text)) in *.
  assert (Hre1 : ignore_re v1 = ignore_re v).
  { unfold v1, after_override; destruct (xml_override _ _); reflexivity. }
  destruct (compile_all (ignore_re v1)) as [rs|] eqn:Hrs.
  - rewrite (drop_patterns_filter _ _ _ Hrs) in Hrem.
    inversion Hrem; subst; clear Hrem.
    rewrite <- Hre1 in Hin.
    destruct (compile_all_In _ _ Hrs Hin) as (r & Hr & Hrin).
    assert (r = regex) by congruence; subst r.
    apply Forall_forall; intros l Hl.
    apply filter_In in Hl as [_ Hl]. apply negb_true_iff in Hl.
    destruct (startswith all_clear_words l) eqn:E; [|reflexivity].
    assert (hit_by_pattern rs l = true).
    { apply existsb_exists. exists regex; split; [exact Hrin|].
      apply Hfind; exact E. }
    congruence.
  - destruct (drop_patterns_raises _ (drop_literals (ignore v1)
                (nonempty_lines text)) (v1, w1) Hrs) as (i & _ & _ & Hr).
    rewrite Hr in Hrem; discriminate.
Qed.

(** The override is an assignment to the stored list: it is still there
    when the call has returned. *)
Lemma validate_override_stays (self : Validator) files w text w' :
  _run_validator host self files None w = (Ok text, w') ->
  xml_override self (nonempty_lines text) = true ->
  snd (validate host files (self, w))
  = (set_ignore DEFAULT_IGNORE_XML self, w').
Proof.
  intros Hrun Hov.
  destruct (validate host files (self, w)) as [r [v1 w1]] eqn:Hval.
  rewrite validate_run, remaining_lines_run, Hrun in Hval. cbv zeta in Hval.
  unfold after_override in Hval. rewrite Hov in Hval.
  destruct (compile_all (ignore_re (set_ignore DEFAULT_IGNORE_XML self)))
    as [rs|] eqn:Hrs.
  - rewrite (drop_patterns_filter _ _ _ Hrs) in Hval.
    inversion Hval; reflexivity.
  - destruct (drop_patterns_raises _
                (drop_literals (ignore (set_ignore DEFAULT_IGNORE_XML self))
                               (nonempty_lines text))
                (set_ignore DEFAULT_IGNORE_XML self, w') Hrs)
      as (i & _ & _ & Hr).
    rewrite Hr in Hval. inversion Hval; reflexivity.
Qed.

End Lifecycle.

(** ** Running the engine *)

Section Engine.

Variable host : Host.

Lemma popen_exited (cmd : list str) (w : World) rc out err :
  spawn host (length (attempts w)) cmd = Exited rc out err ->
  popen_communicate host cmd w = (Ok err, logged w cmd).
Proof. intros H. unfold popen_communicate, launch. rewrite H; reflexivity. Qed.

Lemma popen_ok_inv (cmd : list str) (w : World) err w' :
  popen_communicate host cmd w = (Ok err, w') ->
  w' = logged w cmd /\
  exists rc out, spawn host (length (attempts w)) cmd = Exited rc out err.
Proof.
  unfold popen_communicate, launch.
  destruct (spawn host (length (attempts w)) cmd) as [rc out err0|x].
  - intros H; inversion H; subst. split; [reflexivity|]. exists rc, out; reflexivity.
  - destruct x as [ |[n|]|rc o| | | | | | | | ]; try discriminate.
    + destruct (os_errno host); [|discriminate].
      destruct (Z.eqb n ENOENT); discriminate.
    + destruct (os_errno host); discriminate.
    + destruct (decode_utf8 o); discriminate.
Qed.

(** [_run_validator], step by step. *)
Lemma run_validator_steps (self : Validator) files fmt (w : World) :
  _run_validator host self files fmt w
  = match converted_files host files w with
    | (Raise x, w1) => (Raise x, w1)
    | (Ok files', w1) =>
        match popen_communicate host (command self files' fmt) w1 with
        | (Raise x, w2) => (Raise x, w2)
        | (Ok err, w2) =>
            match decode_utf8 err with
            | Raise x => (Raise x, w2)
            | Ok raw =>
                (Ok (if opt_is (u "json") fmt
                     then strip_java_cruft raw
                     else _normalize_string (strip_java_cruft raw)), w2)
            end
        end
    end.
Proof.
  unfold _run_validator, bind, lift, ret.
  destruct (converted_files host files w) as [[files'|x] w1]; [|reflexivity].
  destruct (popen_communicate host (command self files' fmt) w1)
    as [[err|x] w2]; [|reflexivity].
  destruct (decode_utf8 err); [|reflexivity].
  destruct (opt_is (u "json") fmt); reflexivity.
Qed.

Lemma command_names_format (self : Validator) files fmt f :
  resolved_format self fmt = Some f ->
  exists before after,
    command self files fmt = before ++ [u "--format"; f] ++ after.
Proof.
  intros H. unfold command, _vnu_options.
  replace (match fmt with None => format self | Some f0 => Some f0 end)
    with (Some f) by (destruct fmt; simpl in H; congruence).
  exists ([u "java"] ++ _java_options self ++ [u "-jar"; vnu_jar_location self]
          ++ (if errors_only self then [u "--errors-only"] else [])
          ++ (if detect_language self then [] else [u "--no-langdetect"])),
         ((match vnu_args self with Some a => a | None => [] end) ++ files).
  repeat rewrite <- app_assoc. reflexivity.
Qed.

(** The text [_run_validator] returns is the decoded error stream of the
    engine without the announcements of the Java runtime, and its
    typographic double quotes are made ASCII exactly when the format
    argument of the call is not ['json'], whatever the configured format:
    [validate] passes no format, so its text is always normalized;
    [get_messages] passes ['json'], so its text is never normalized. *)
Lemma run_validator_normalizes_by_argument
    (self : Validator) files fmt (w : World) text w' :
  _run_validator host self files fmt w = (Ok text, w') ->
  exists files' w1 rc out err raw,
    converted_files host files w = (Ok files', w1) /\
    spawn host (length (attempts w1)) (command self files' fmt)
    = Exited rc out err /\
    decode_utf8 err = Ok raw /\
    w' = logged w1 (command self files' fmt) /\
    (fmt = Some (u "json") -> text = strip_java_cruft raw) /\
    (fmt <> Some (u "json") ->
     text = _normalize_string (strip_java_cruft raw)) /\
    (fmt = None -> Forall (fun c => c <> ldquo /\ c <> rdquo) text).
Proof.
  rewrite run_validator_steps.
  destruct (converted_files host files w) as [[files'|x] w1] eqn:Hc;
    [|discriminate].
  destruct (popen_communicate host (command self files' fmt) w1)
    as [[err|x] w2] eqn:Hp; [|discriminate].
  destruct (decode_utf8 err) as [raw|x] eqn:Hd; [|discriminate].
  intros H; inversion H; subst; clear H.
  destruct (popen_ok_inv _ _ Hp) as (-> & rc & out & Hs).
  exists files', w1, rc, out, err, raw.
  repeat split; try assumption.
  - intros ->. reflexivity.
  - intros Hne. destruct (opt_is (u "json") fmt) eqn:E; [|reflexivity].
    destruct fmt as [f|]; [|discriminate]. simpl in E.
    apply eqb_str_eq in E; subst; congruence.
  - intros ->. simpl. apply normalize_string_plain.
Qed.

(** X24.  Where [os] has the attribute [errno]: when the launch of the engine
    raises an [OSError] with the code [ENOENT], [_run_validator] raises
    [JavaNotFoundException]; when the launch raises anything else that is
    not caught (a [CalledProcessError] does not come from a launch),
    [_run_validator] raises that same exception; and in both cases the
    engine has been launched once. *)
Theorem run_validator_launch_failure_with_os_errno
    (self : Validator) files fmt (w : World) files' w1 x :
  os_errno host = true ->
  converted_files host files w = (Ok files', w1) ->
  spawn host (length (attempts w1)) (command self files' fmt)
  = LaunchRaised x ->
  (x = OSError (Some ENOENT) ->
   _run_validator host self files fmt w
   = (Raise JavaNotFoundException, logged w1 (command self files' fmt))) /\
  (x <> OSError (Some ENOENT) ->
   (forall rc out, x <> CalledProcessError rc out) ->
   _run_validator host self files fmt w
   = (Raise x, logged w1 (command self files' fmt))).
Proof.
  intros Hos Hc Hs. rewrite run_validator_steps, Hc.
  unfold popen_communicate, launch. rewrite Hs, Hos. split.
  - intros ->. reflexivity.
  - intros Hne Hcp.
    destruct x as [ |[n|]|rc o| | | | | | | | ]; try reflexivity.
    + destruct (Z.eqb n ENOENT) eqn:E; [|reflexivity].
      apply Z.eqb_eq in E; subst; congruence.
    + exfalso; exact (Hcp rc o eq_refl).
Qed.

(** X25.  Where [os] has no attribute [errno]: whatever [OSError] the launch
    of the engine raises, the handler raises [AttributeError] in its
    place. *)
Theorem run_validator_launch_failure_without_os_errno
    (self : Validator) files fmt (w : World) files' w1 code :
  os_errno host = false ->
  converted_files host files w = (Ok files', w1) ->
  spawn host (length (attempts w1)) (command self files' fmt)
  = LaunchRaised (OSError code) ->
  _run_validator host self files fmt w
  = (Raise AttributeError, logged w1 (command self files' fmt)).
Proof.
  intros Hos Hc Hs. rewrite run_validator_steps, Hc.
  unfold popen_communicate, launch. rewrite Hs, Hos. reflexivity.
Qed.

End Engine.

(** ** Structured messages *)

Section Messages.

Context {js : JsonLib}.
Variable host : Host.

Lemma get_messages_run (self : Validator) files (w : World) :
  get_messages host files (self, w)
  = match _run_validator host self files (Some (u "json")) w with
    | (Raise x, w') => (Raise x, (self, w'))
    | (Ok text, w') =>
        match json_loads text with
        | None => (Raise JSONDecodeError, (self, w'))
        | Some doc => (getitem doc (u "messages"), (self, w'))
        end
    end.
Proof.
  unfold get_messages, bind, get_self, in_world, lift; simpl.
  destruct (_run_validator host self files (Some (u "json")) w)
    as [[text|x] w']; [|reflexivity].
  destruct (json_loads text); reflexivity.
Qed.

(** The engine run does not read the ignore rules. *)
Lemma run_validator_rules (self : Validator) literals patterns files fmt w :
  _run_validator host (with_rules literals patterns self) files fmt w
  = _run_validator host self files fmt w.
Proof. reflexivity. Qed.

(** The value under ['messages'] is returned as it is, array or not. *)
Lemma get_messages_member (self : Validator) files (w : World) text w'
    members v :
  _run_validator host self files (Some (u "json")) w = (Ok text, w') ->
  json_loads text = Some (JDict members) ->
  lookup (u "messages") members = Some v ->
  get_messages host files (self, w) = (Ok v, (self, w')).
Proof.
  intros Hrun Hdoc Hm. rewrite get_messages_run, Hrun, Hdoc.
  unfold getitem. rewrite Hm. reflexivity.
Qed.

(** C8.  [get_messages] runs the engine with the format ['json'] whatever
    the configured format, reads the text as JSON and returns the value
    under ['messages']: when that is an array, the array itself, in its
    order, whatever the ignore rules are.  When the text is not JSON, or
    the document is not an object, or the object has no ['messages'], an
    exception is raised and nothing is returned.  The object is left as it
    was. *)
Theorem get_messages_returns_messages
    (self : Validator) files (w : World) text w' :
  _run_validator host self files (Some (u "json")) w = (Ok text, w') ->
  (forall files', exists before after,
      command self files' (Some (u "json"))
      = before ++ [u "--format"; u "json"] ++ after) /\
  (forall members items,
      json_loads text = Some (JDict members) ->
      lookup (u "messages") members = Some (JList items) ->
      forall literals patterns,
        get_messages host files (with_rules literals patterns self, w)
        = (Ok (JList items), (with_rules literals patterns self, w'))) /\
  (json_loads text = None ->
   get_messages host files (self, w) = (Raise JSONDecodeError, (self, w'))) /\
  (forall doc,
      json_loads text = Some doc ->
      (forall members, doc <> JDict members) ->
      get_messages host files (self, w) = (Raise TypeError, (self, w'))) /\
  (forall members,
      json_loads text = Some (JDict members) ->
      lookup (u "messages") members = None ->
      get_messages host files (self, w)
      = (Raise (KeyError (u "messages")), (self, w'))).
Proof.
  intros Hrun. split; [|split; [|split; [|split]]].
  - intros files'. apply command_names_format. reflexivity.
  - intros members items Hdoc Hm literals patterns.
    rewrite get_messages_run, run_validator_rules, Hrun, Hdoc.
    unfold getitem. rewrite Hm. reflexivity.
  - intros Hdoc. rewrite get_messages_run, Hrun, Hdoc. reflexivity.
  - intros doc Hdoc Hnd. rewrite get_messages_run, Hrun, Hdoc.
    destruct doc; try reflexivity. exfalso; exact (Hnd _ eq_refl).
  - intros members Hdoc Hm. rewrite get_messages_run, Hrun, Hdoc.
    unfold getitem. rewrite Hm. reflexivity.
Qed.

End Messages.

(** ** File discovery *)

Lemma tree_induction (P : tree -> Prop) :
  (forall dirs nondirs, Forall (fun d => P (snd d)) dirs ->
                        P (Dir dirs nondirs)) ->
  forall t, P t.
Proof.
  intros H. fix IH 1. intros [dirs nondirs]. apply H.
  induction dirs as [|d dirs IHd]; constructor; [apply IH | exact IHd].
Qed.

Lemma mem_In (x : str) (l : list str) : mem x l = true <-> In x l.
Proof.
  unfold mem. rewrite existsb_exists. split.
  - intros (y & Hy & E). apply eqb_str_eq in E; subst; exact Hy.
  - intros H. exists x; split; [exact H | apply eqb_str_refl].
Qed.

Lemma nodupb_NoDup (l : list str) : nodupb l = true -> NoDup l.
Proof.
  induction l as [|x l IH]; simpl; intros H; constructor;
    apply andb_true_iff in H as [H1 H2].
  - intros Hin. apply mem_In in Hin. rewrite Hin in H1; discriminate.
  - exact (IH H2).
Qed.

Lemma remove_first_In (x y : str) (l : list str) :
  In x (remove_first y l) -> In x l.
Proof.
  induction l as [|z l IH]; simpl; [tauto|].
  destruct (Str.eqb y z); simpl; tauto.
Qed.

Lemma remove_first_NoDup (y : str) (l : list str) :
  NoDup l -> NoDup (remove_first y l).
Proof.
  induction 1 as [|z l Hz Hl IH]; simpl; [constructor|].
  destruct (Str.eqb y z); [exact Hl|].
  constructor; [|exact IH]. intros Hin; apply Hz.
  eapply remove_first_In; exact Hin.
Qed.

Lemma remove_first_gone (y : str) (l : list str) :
  NoDup l -> ~ In y (remove_first y l).
Proof.
  induction 1 as [|z l Hz Hl IH]; simpl; [tauto|].
  destruct (Str.eqb y z) eqn:E.
  - apply eqb_str_eq in E; subst; exact Hz.
  - intros [->|Hin]; [rewrite eqb_str_refl in E; discriminate | exact (IH Hin)].
Qed.

Section Discovery.

Context {fn : FnmatchLib}.

(** The first loop of the body: no name of the blacklist is left. *)
Lemma blacklist_loop (blacklist dirnames : list str) :
  NoDup dirnames ->
  let left := fold_left
                (fun dn b => if mem b dn then remove_first b dn else dn)
                blacklist dirnames in
  NoDup left /\ (forall n, In n left -> In n dirnames)
  /\ (forall b, In b blacklist -> ~ In b left).
Proof.
  revert dirnames; induction blacklist as [|b blacklist IH];
    intros dirnames Hnd; simpl.
  - repeat split; auto.
  - set (dn := if mem b dirnames then remove_first b dirnames else dirnames).
    assert (Hdn : NoDup dn /\ (forall n, In n dn -> In n dirnames)
                   /\ ~ In b dn).
    { unfold dn. destruct (mem b dirnames) eqn:E.
      - repeat split; [apply remove_first_NoDup; exact Hnd
                      | intros n; apply remove_first_In
                      | apply remove_first_gone; exact Hnd].
      - repeat split; auto. intros Hin. apply mem_In in Hin. congruence. }
    destruct Hdn as (H1 & H2 & H3).
    destruct (IH dn H1) as (I1 & I2 & I3).
    repeat split; [exact I1 | intros n Hn; apply H2, I2, Hn |].
    intros b' [->|Hb']; [intros Hin; apply H3, I2, Hin | apply I3, Hb'].
Qed.

Lemma remove_loop_In (gone dirnames : list str) n :
  In n (fold_left (fun dn d => remove_first d dn) gone dirnames) ->
  In n dirnames.
Proof.
  revert dirnames; induction gone as [|d gone IH]; intros dirnames; simpl;
    [tauto|].
  intros H. apply IH in H. eapply remove_first_In; exact H.
Qed.

(** After the pruning of the body, every name left is a name of the
    directory and none is in the blacklist. *)
Lemma prune_dirnames_sound blacklist skip_invisible dirnames left :
  NoDup dirnames ->
  prune_dirnames blacklist skip_invisible dirnames = Ok left ->
  forall n, In n left -> In n dirnames /\ ~ In n blacklist.
Proof.
  intros Hnd. unfold prune_dirnames.
  destruct (blacklist_loop blacklist Hnd) as (_ & H2 & H3).
  cbv zeta in H2, H3.
  set (dn := fold_left _ blacklist dirnames) in *.
  intros H n Hn.
  assert (Hin : In n dn).
  { destruct skip_invisible.
    - destruct (filterR first_is_dot dn) as [inv|x]; [|discriminate].
      inversion H; subst. eapply remove_loop_In; exact Hn.
    - inversion H; subst; exact Hn. }
  split; [apply H2, Hin|]. intros Hb. exact (H3 n Hb Hin).
Qed.

Lemma sequenceR_In {A} (l : list (result (list A))) out a :
  sequenceR l = Ok out -> In a out ->
  exists xs, In (Ok xs) l /\ In a xs.
Proof.
  revert out; induction l as [|[xs|x] l IH]; simpl; intros out H Ha.
  - inversion H; subst; contradiction.
  - destruct (sequenceR l) as [r|x]; [|discriminate].
    inversion H; subst. apply in_app_or in Ha as [Ha|Ha].
    + exists xs; split; [left; reflexivity | exact Ha].
    + destruct (IH r eq_refl Ha) as (ys & Hys & Hin).
      exists ys; split; [right; exact Hys | exact Hin].
  - discriminate.
Qed.

Lemma lookup_below {A} (g : str -> tree -> A) (name : str)
    (dirs : list (str * tree)) :
  lookup name (List.map (fun d => (fst d, g (fst d) (snd d))) dirs)
  = option_map (g name) (lookup name dirs).
Proof.
  induction dirs as [|[n sub] dirs IH]; simpl; [reflexivity|].
  destruct (Str.eqb n name) eqn:E; [|exact IH].
  apply eqb_str_eq in E; subst; reflexivity.
Qed.

Lemma lookup_In {A} (name : str) (l : list (str * A)) a :
  lookup name l = Some a -> In (name, a) l.
Proof.
  induction l as [|[n b] l IH]; simpl; [discriminate|].
  destruct (Str.eqb n name) eqn:E.
  - apply eqb_str_eq in E; subst. intros H; inversion H; left; reflexivity.
  - intros H; right; exact (IH H).
Qed.

(** Whatever the body contributes, a contribution comes from a directory
    that is reached from the start through names outside the blacklist. *)
Lemma walk_sound {A} (blacklist : list str) (skip_invisible : bool)
    (visit : list str -> str -> list str -> result (list A)) (t : tree) :
  forall rel root out,
    unique_names t = true ->
    walk blacklist skip_invisible visit rel root t = Ok out ->
    forall a, In a out ->
      exists rel' dirs nondirs here,
        dir_at t rel' = Some (Dir dirs nondirs) /\
        (forall b, In b blacklist -> ~ In b rel') /\
        visit (rel ++ rel') (fold_left PosixPath.join rel' root) nondirs
        = Ok here /\
        In a here.
Proof.
  induction t as [dirs nondirs IH] using tree_induction.
  intros rel root out Hu Hw a Ha.
  cbn [unique_names] in Hu. apply andb_true_iff in Hu as [Hnd Hsub].
  apply nodupb_NoDup in Hnd.
  cbn [walk] in Hw.
  destruct (prune_dirnames blacklist skip_invisible (List.map fst dirs))
    as [dirnames|x] eqn:Hp; [|discriminate].
  destruct (visit rel root nondirs) as [here|x] eqn:Hv; [|discriminate].
  match type of Hw with
  | match sequenceR ?l with _ => _ end = _ =>
      destruct (sequenceR l) as [deeper|x] eqn:Hs; [|discriminate]
  end.
  inversion Hw; subst; clear Hw.
  apply in_app_or in Ha as [Ha|Ha].
  - exists [], dirs, nondirs, here. rewrite app_nil_r.
    repeat split; auto.
  - destruct (sequenceR_In _ _ Hs Ha) as (xs & Hxs & Hin).
    apply in_map_iff in Hxs as (name & Hname & Hdn).
    rewrite (lookup_below
               (fun n sub => walk blacklist skip_invisible visit
                                  (rel ++ [n]) (PosixPath.join root n) sub))
      in Hname.
    destruct (lookup name dirs) as [sub|] eqn:Hl; simpl in Hname.
    + destruct (prune_dirnames_sound _ _ Hnd Hp name Hdn) as [_ Hnb].
      pose proof (lookup_In _ _ Hl) as Hd.
      rewrite Forall_forall in IH. specialize (IH _ Hd). simpl in IH.
      rewrite forallb_forall in Hsub. specialize (Hsub _ Hd). simpl in Hsub.
      destruct (IH _ _ _ Hsub Hname a Hin)
        as (rel' & ds & nds & here' & Hat & Hbl & Hvis & Hah).
      exists (name :: rel'), ds, nds, here'.
      repeat split.
      * cbn [dir_at subdirs]. rewrite Hl. exact Hat.
      * intros b Hb [->|Hin']; [exact (Hnb Hb) | exact (Hbl b Hb Hin')].
      * rewrite <- app_assoc in Hvis. exact Hvis.
      * exact Hah.
    + inversion Hname; subst; contradiction.
Qed.

Lemma matched_in_In skip_invisible root names out f :
  matched_in skip_invisible root names = Ok out -> In f out ->
  exists name, In name names /\ f = PosixPath.join root name.
Proof.
  revert out; induction names as [|n names IH]; simpl; intros out H Hf.
  - inversion H; subst; contradiction.
  - destruct (if skip_invisible then first_is_dot n else Ok false)
      as [hidden|x]; [|discriminate].
    destruct (matched_in skip_invisible root names) as [r|x]; [|discriminate].
    inversion H; subst; clear H.
    destruct hidden.
    + destruct (IH r eq_refl Hf) as (name & Hn & ->).
      exists name; split; [right; exact Hn | reflexivity].
    + destruct Hf as [<-|Hf].
      * exists n; split; [left; reflexivity | reflexivity].
      * destruct (IH r eq_refl Hf) as (name & Hn & ->).
        exists name; split; [right; exact Hn | reflexivity].
Qed.

Lemma remove_first_filter (b : str) (l : list str) :
  NoDup l -> remove_first b l = filter (fun n => negb (Str.eqb b n)) l.
Proof.
  induction 1 as [|x l Hx Hl IH]; simpl; [reflexivity|].
  destruct (Str.eqb b x) eqn:E; simpl.
  - apply eqb_str_eq in E; subst. symmetry. apply filter_id.
    apply Forall_forall; intros n Hn. apply negb_true_iff.
    destruct (Str.eqb x n) eqn:E; [|reflexivity].
    apply eqb_str_eq in E; subst; contradiction.
  - rewrite IH; reflexivity.
Qed.

Lemma NoDup_filter_str (p : str -> bool) (l : list str) :
  NoDup l -> NoDup (filter p l).
Proof.
  induction 1 as [|x l Hx Hl IH]; simpl; [constructor|].
  destruct (p x); [|exact IH]. constructor; [|exact IH].
  intros Hin; apply filter_In in Hin as [Hin _]; contradiction.
Qed.

Lemma eqb_str_sym (a b : str) : Str.eqb a b = Str.eqb b a.
Proof.
  destruct (Str.eqb a b) eqn:E1, (Str.eqb b a) eqn:E2; try reflexivity.
  - apply eqb_str_eq in E1; subst. rewrite eqb_str_refl in E2; discriminate.
  - apply eqb_str_eq in E2; subst. rewrite eqb_str_refl in E1; discriminate.
Qed.

(** On distinct names the first loop of the body leaves the names that are
    not in the blacklist. *)
Lemma blacklist_loop_filter (blacklist dirnames : list str) :
  NoDup dirnames ->
  fold_left (fun dn b => if mem b dn then remove_first b dn else dn)
            blacklist dirnames
  = filter (fun n => negb (mem n blacklist)) dirnames.
Proof.
  revert dirnames; induction blacklist as [|b blacklist IH];
    intros dirnames Hnd; simpl.
  - symmetry; apply filter_id, Forall_forall; reflexivity.
  - assert (E : (if mem b dirnames then remove_first b dirnames else dirnames)
                = filter (fun n => negb (Str.eqb b n)) dirnames).
    { destruct (mem b dirnames) eqn:Hm.
      - apply remove_first_filter; exact Hnd.
      - symmetry; apply filter_id, Forall_forall. intros n Hn.
        apply negb_true_iff. destruct (Str.eqb b n) eqn:E; [|reflexivity].
        apply eqb_str_eq in E; subst. apply mem_In in Hn. congruence. }
    rewrite E, IH by (apply NoDup_filter_str; exact Hnd).
    rewrite filter_filter. apply filter_ext; intros n.
    rewrite negb_orb, (eqb_str_sym n b). reflexivity.
Qed.

Lemma erased_names (blacklist : list str) (dirs : list (str * tree)) :
  List.map fst
    (flat_map (fun d => if mem (fst d) blacklist then []
                        else [(fst d, erase blacklist (snd d))]) dirs)
  = filter (fun n => negb (mem n blacklist)) (List.map fst dirs).
Proof.
  induction dirs as [|[n sub] dirs IH]; simpl; [reflexivity|].
  destruct (mem n blacklist); simpl; rewrite IH; reflexivity.
Qed.

Lemma erased_lookup (blacklist : list str) (dirs : list (str * tree)) name :
  mem name blacklist = false ->
  lookup name
    (flat_map (fun d => if mem (fst d) blacklist then []
                        else [(fst d, erase blacklist (snd d))]) dirs)
  = option_map (erase blacklist) (lookup name dirs).
Proof.
  intros Hn. induction dirs as [|[n sub] dirs IH]; simpl; [reflexivity|].
  destruct (Str.eqb n name) eqn:E.
  - apply eqb_str_eq in E; subst. rewrite Hn. simpl.
    rewrite eqb_str_refl; reflexivity.
  - destruct (mem n blacklist); simpl; [exact IH|]. rewrite E; exact IH.
Qed.

Lemma filter_twice {A} (p : A -> bool) (l : list A) :
  filter p (filter p l) = filter p l.
Proof.
  rewrite filter_filter. apply filter_ext; intros x.
  destruct (p x); reflexivity.
Qed.

(** What lies beneath a directory with a name of the blacklist has no part
    in the walk. *)
Lemma walk_erase {A} (blacklist : list str) (skip_invisible : bool)
    (visit : list str -> str -> list str -> result (list A)) (t : tree) :
  forall rel root,
    unique_names t = true ->
    walk blacklist skip_invisible visit rel root (erase blacklist t)
    = walk blacklist skip_invisible visit rel root t.
Proof.
  induction t as [dirs nondirs IH] using tree_induction.
  intros rel root Hu.
  cbn [unique_names] in Hu. apply andb_true_iff in Hu as [Hnd Hsub].
  apply nodupb_NoDup in Hnd.
  cbn [erase walk]. rewrite erased_names.
  assert (Hp : prune_dirnames blacklist skip_invisible
                 (filter (fun n => negb (mem n blacklist)) (List.map fst dirs))
               = prune_dirnames blacklist skip_invisible (List.map fst dirs)).
  { unfold prune_dirnames.
    rewrite !blacklist_loop_filter
      by (try apply NoDup_filter_str; exact Hnd).
    rewrite filter_twice. reflexivity. }
  rewrite Hp.
  destruct (prune_dirnames blacklist skip_invisible (List.map fst dirs))
    as [dirnames|x] eqn:Hpr; [|reflexivity].
  destruct (visit rel root nondirs) as [here|x]; [|reflexivity].
  match goal with
  | |- match sequenceR ?l1 with _ => _ end
       = match sequenceR ?l2 with _ => _ end =>
      replace l1 with l2; [reflexivity|]
  end.
  apply map_ext_in. intros name Hname.
  destruct (prune_dirnames_sound _ _ Hnd Hpr name Hname) as [Hin Hnb].
  rewrite (lookup_below
             (fun n sub => walk blacklist skip_invisible visit
                                (rel ++ [n]) (PosixPath.join root n) sub)).
  rewrite (lookup_below
             (fun n sub => walk blacklist skip_invisible visit
                                (rel ++ [n]) (PosixPath.join root n) sub)).
  rewrite erased_lookup.
  2:{ destruct (mem name blacklist) eqn:E; [|reflexivity].
      apply mem_In in E; contradiction. }
  destruct (lookup name dirs) as [sub|] eqn:Hl; [|reflexivity]. simpl.
  pose proof (lookup_In _ _ Hl) as Hd.
  rewrite Forall_forall in IH. specialize (IH _ Hd). simpl in IH.
  rewrite forallb_forall in Hsub. specialize (Hsub _ Hd). simpl in Hsub.
  symmetry. apply IH; exact Hsub.
Qed.

(** C6.  In a file system (no two entries of a directory share a name)
    the loop of [all_files] only runs on directories that are reached
    from the start through names outside the blacklist; every path
    returned joins such a directory and the name of one of its entries,
    whatever the match patterns are; and the result is the one for the tree
    without the blacklisted directories: what lies beneath them is never
    looked at. *)
Theorem all_files_prunes_blacklisted
    (directory : str) (t : tree) (match_ : match_arg)
    (blacklist : option (list str)) (skip_invisible : bool) :
  unique_names t = true ->
  (forall dirs_seen,
      visited t blacklist skip_invisible = Ok dirs_seen ->
      forall rel, In rel dirs_seen ->
        (exists sub, dir_at t rel = Some sub) /\
        forall b, In b (blacklist_of blacklist) -> ~ In b rel) /\
  (forall files,
      all_files directory t match_ blacklist skip_invisible = Ok files ->
      forall f, In f files ->
        exists rel dirs nondirs name,
          dir_at t rel = Some (Dir dirs nondirs) /\
          (forall b, In b (blacklist_of blacklist) -> ~ In b rel) /\
          In name nondirs /\
          f = PosixPath.join (fold_left PosixPath.join rel directory) name) /\
  all_files directory (erase (blacklist_of blacklist) t) match_ blacklist
            skip_invisible
  = all_files directory t match_ blacklist skip_invisible.
Proof.
  intros Hu. split; [|split].
  - intros dirs_seen Hv rel Hrel. unfold visited in Hv.
    destruct (walk_sound _ _ _ _ _ _ Hu Hv rel Hrel)
      as (rel' & ds & nds & here & Hat & Hbl & Hvis & Hin).
    inversion Hvis; subst. destruct Hin as [<-|[]]. simpl.
    split; [exists (Dir ds nds); exact Hat | exact Hbl].
  - intros files Hf f Hin. unfold all_files in Hf.
    destruct (walk_sound _ _ _ _ _ _ Hu Hf f Hin)
      as (rel' & ds & nds & here & Hat & Hbl & Hvis & Hh).
    unfold collect in Hvis.
    destruct (matched_in_In _ _ _ _ Hvis Hh) as (name & Hn & ->).
    apply in_flat_map in Hn as (pat & _ & Hn).
    apply filter_In in Hn as [Hn _].
    exists rel', ds, nds, name. repeat split; auto.
  - unfold all_files, blacklist_of. apply walk_erase; exact Hu.
Qed.

End Discovery.

(** ** The fragment engine and the built-in pattern *)

Section AllClear.

Import MiniRe.

Lemma run_items (items : list rx) (w : str) (r : rx) k bos s :
  Forall2 (fun i c => accepts_char i c = true) items w ->
  run (fold_right Seq r items) k bos (w ++ s)
  = run r k (match w with [] => bos | _ :: _ => false end) s.
Proof.
  intros H; revert bos; induction H as [|i c items w Hi _ IH]; intros bos.
  - reflexivity.
  - cbn [fold_right app run].
    destruct i; try discriminate; cbn [run accepts_char] in *;
      rewrite Hi, IH; destruct w; reflexivity.
Qed.

Lemma items_accept (w : str) :
  Forall (fun c => c <> LF) w ->
  Forall2 (fun i c => accepts_char i c = true) (List.map item_of w) w.
Proof.
  induction 1 as [|c w Hc _ IH]; simpl; constructor; [|exact IH].
  unfold item_of. destruct (N.eqb c dot); simpl.
  - apply negb_true_iff, N.eqb_neq; exact Hc.
  - apply N.eqb_refl.
Qed.

Lemma star_accepts (r : rx) bos s : run (Seq (Star r) Eps) accept bos s = true.
Proof. cbn [run]. destruct (length s); reflexivity. Qed.

Lemma compile_all_clear :
  compile (u "\ADocument checking completed. No errors found.*")
  = Some (Seq Bos (fold_right Seq (Seq (Star AnyChar) Eps)
                              (List.map item_of all_clear_words))).
Proof. vm_compute. reflexivity. Qed.

(** The fragment engine finds the built-in pattern in every text that
    begins with the all-clear words. *)
Lemma MiniRe_finds_all_clear : @finds_all_clear lib.
Proof.
  eexists; split; [exact compile_all_clear|].
  intros l Hl. apply startswith_inv in Hl as [rest ->].
  cbn [re_search lib]. unfold search.
  destruct (all_clear_words ++ rest) eqn:E; [discriminate|].
  cbn [search_from]. rewrite <- E. unfold match_here.
  cbn [run andb]. rewrite run_items.
  - rewrite star_accepts; reflexivity.
  - apply items_accept. vm_compute.
    repeat (constructor; [discriminate|]). constructor.
Qed.

End AllClear.

(** The constructor on the first scenario. *)
Lemma init_xml_validator :
  __init__ clean_then_findings (Some 0) None false true
           (Some (u "xml")) None None ([[u "foo"]], Example.fresh)
  = (Ok xml_validator, ([[u "foo"] ++ DEFAULT_IGNORE], Example.fresh)).
Proof. vm_compute. reflexivity. Qed.

(** C1, on the code.  A validator made with [ignore=['foo']] and the format
    ['xml'] has the literals ['foo'] and the built-in one.  A first call of
    [validate] on a clean report returns 0 and leaves the envelope lines as
    the stored literal list; a second call, on a report with two findings of
    which one mentions [foo], then counts 2, where the rules the validator
    was made with give 4. *)
Theorem xml_override_outlives_the_call :
  let first := validate (re := MiniRe.lib) clean_then_findings files
                        (xml_validator, Example.fresh) in
  ignore xml_validator = [u "foo"] ++ DEFAULT_IGNORE /\
  fst first = Ok 0 /\
  ignore (fst (snd first)) = DEFAULT_IGNORE_XML /\
  ignore (fst (snd first)) <> ignore xml_validator /\
  fst (validate (re := MiniRe.lib) clean_then_findings files (snd first))
  = Ok 2 /\
  fst (validate (re := MiniRe.lib) clean_then_findings files
                (xml_validator, snd (snd first)))
  = Ok 4.
Proof.
  cbv zeta. repeat split; try (vm_compute; reflexivity).
  vm_compute. discriminate.
Qed.

(** [validate] on a clean XML report. *)
Lemma validate_clean_xml_is_zero_witness :
  fst (validate (re := MiniRe.lib) clean_then_findings files
                (xml_validator, Example.fresh)) = Ok 0.
Proof.
  apply (@validate_clean_xml_is_zero MiniRe.lib clean_then_findings
           xml_validator files Example.fresh
           (Example.text_of clean_xml_report)
           (after_one_run xml_validator None)).
  - reflexivity.
  - vm_compute. reflexivity.
  - vm_compute. reflexivity.
  - repeat constructor. vm_compute. discriminate.
Defined.

(** [validate] on a text report of five lines: one is empty, one contains
    the literal, one is found by the pattern of the user, one by the
    built-in pattern, and one is counted. *)
Lemma validate_counts_kept_lines_witness :
  validate (re := MiniRe.lib) text_host files (text_validator, Example.fresh)
  = (Ok 1, (text_validator, after_one_run text_validator None)).
Proof.
  assert (Hrun : _run_validator text_host text_validator files None
                                Example.fresh
                 = (Ok (Example.text_of text_report),
                    after_one_run text_validator None))
    by (vm_compute; reflexivity).
  assert (Hre : @compile_all MiniRe.lib (ignore_re text_validator)
                = Some text_regexes)
    by (vm_compute; reflexivity).
  rewrite (@validate_counts_kept_lines MiniRe.lib text_host text_validator
             files Example.fresh _ _ _ Hrun Hre).
  vm_compute. reflexivity.
Defined.

(** Two lines that no rule touches. *)
Lemma filtering_fixes_filtered_lines_witness :
  drop_patterns (re := MiniRe.lib) [u "ba+r"]
                (drop_literals [u "foo"] [u "hello"; u "world"]) tt
  = (Ok [u "hello"; u "world"], tt).
Proof.
  apply (@filtering_fixes_filtered_lines MiniRe.lib unit
           [u "foo"] [u "ba+r"] [u "hello"; u "world"] tt).
  - repeat constructor; discriminate.
  - repeat constructor.
  - constructor; [|constructor].
    eexists. split; [vm_compute; reflexivity|].
    repeat constructor.
Defined.

(** A literal written with typographic quotes, and a line that quotes the
    same word with one ASCII and one typographic quote. *)
Lemma init_lists_of_separate_arguments_witness :
  drop_literals (ignore lang_validator)
    [_normalize_string
       (u "Attribute " ++ (dquote :: u "lang" ++ [rdquo]) ++ u " missing")]
  = [].
Proof.
  assert (H : __init__ clean_then_findings (Some 0) None false true None
                None None ([[ldquo :: u "lang" ++ [rdquo]]], Example.fresh)
              = (Ok lang_validator,
                 ([[ldquo :: u "lang" ++ [rdquo]] ++ DEFAULT_IGNORE],
                  Example.fresh)))
    by (vm_compute; reflexivity).
  apply (proj2 (proj2 (proj2 (proj2 (proj2
           (@init_lists_of_separate_arguments clean_then_findings
              (Some 0) None false true None None None
              [[ldquo :: u "lang" ++ [rdquo]]] Example.fresh _ _
              (or_introl eq_refl) H)))))
           (ldquo :: u "lang" ++ [rdquo])).
  - left; reflexivity.
  - reflexivity.
Defined.

(** C7, on the code.  [shared = ['x']; Validator(ignore=shared,
    ignore_re=shared)]: one list object is given for both arguments.  The
    two [+=] extend that one object, so the literal list and the pattern
    list of the validator are both the entry, the built-in pattern and the
    built-in literal: the literal list is not the literals given followed
    by the built-in literal, the pattern list is not the patterns given
    followed by the built-in pattern, and the list of the caller has grown
    by the two built-in entries.  Two lists with the same entry give the
    lists of the claim. *)
Theorem init_one_list_for_both_arguments :
  given one_list (Some 0) = [u "x"] /\
  __init__ (Example.linux []) (Some 0) (Some 0) false true None None None
           (one_list, Example.fresh)
  = (Ok (configured mixed_rules mixed_rules None),
     ([mixed_rules], Example.fresh)) /\
  mixed_rules <> [u "x"] ++ DEFAULT_IGNORE /\
  mixed_rules <> [u "x"] ++ DEFAULT_IGNORE_RE /\
  __init__ (Example.linux []) (Some 0) (Some 1) false true None None None
           (two_lists, Example.fresh)
  = (Ok (configured ([u "x"] ++ DEFAULT_IGNORE) ([u "x"] ++ DEFAULT_IGNORE_RE)
                    None),
     ([[u "x"] ++ DEFAULT_IGNORE; [u "x"] ++ DEFAULT_IGNORE_RE],
      Example.fresh)).
Proof.
  repeat split; try (vm_compute; reflexivity); vm_compute; discriminate.
Qed.

(** The validator of the text report, after construction. *)
Lemma all_clear_line_never_counted_witness :
  In (u "\ADocument checking completed. No errors found.*")
     (ignore_re text_validator).
Proof.
  assert (H : __init__ text_host (Some 0) (Some 1) false
                true None None None ([[u "foo"]; [u "ba+r"]], Example.fresh)
              = (Ok text_validator,
                 ([[u "foo"] ++ DEFAULT_IGNORE;
                   [u "ba+r"] ++ DEFAULT_IGNORE_RE], Example.fresh)))
    by (vm_compute; reflexivity).
  exact (proj1 (@all_clear_line_never_counted MiniRe.lib MiniJson.lib
                  text_host text_validator MiniRe_finds_all_clear
                  (@reach_init MiniRe.lib MiniJson.lib text_host
                     _ _ _ _ _ _ _ _ _ _ H))).
Defined.

(** C2, on the code.  The validator is configured with the format ['json']
    and [validate] runs the engine with [--format json]; the message of the
    engine quotes [foo] between typographic quotes; the text that comes back
    to [validate] has ASCII quotes there: it is not the text the engine
    wrote, and it is not JSON any more. *)
Theorem json_text_is_normalized_for_validate :
  format json_validator = Some (u "json") /\
  (exists before after,
      command json_validator files None
      = before ++ [u "--format"; u "json"] ++ after) /\
  spawn json_host 0 (command json_validator files None)
  = Exited 0 [] (Example.encode json_report) /\
  decode_utf8 (Example.encode json_report) = Ok json_report /\
  strip_java_cruft json_report = json_report /\
  _run_validator json_host json_validator files None Example.fresh
  = (Ok (_normalize_string json_report), after_one_run json_validator None) /\
  _normalize_string json_report <> json_report /\
  In ldquo json_report /\ ~ In ldquo (_normalize_string json_report) /\
  MiniJson.loads json_report
  = Some (JDict [(u "messages", JList json_report_messages)]) /\
  MiniJson.loads (_normalize_string json_report) = None.
Proof.
  repeat split; try (vm_compute; reflexivity).
  - exists [u "java"; u "-jar"; jar], files. reflexivity.
  - vm_compute. discriminate.
  - vm_compute. tauto.
  - vm_compute. intuition discriminate.
Qed.

(** C4, on the code.  No Java on the host, under a Python from 3.7 on:
    the launch raises an [OSError] with the code [ENOENT], the handler
    looks for [os.errno], which is not there, and [_run_validator] raises
    [AttributeError], not [JavaNotFoundException].  An [OSError] with
    another code (13, no permission) is not raised again unchanged
    either: it becomes [AttributeError] too.  Under a Python up to 3.6 the
    same launch gives [JavaNotFoundException]. *)
Theorem missing_java_raises_attribute_error :
  os_errno (Example.failing (OSError (Some ENOENT))) = false /\
  _run_validator (Example.failing (OSError (Some ENOENT))) json_validator
                 files None Example.fresh
  = (Raise AttributeError, after_one_run json_validator None) /\
  _run_validator (Example.failing (OSError (Some 13%Z))) json_validator
                 files None Example.fresh
  = (Raise AttributeError, after_one_run json_validator None) /\
  _run_validator (Example.failing_with_os_errno (OSError (Some ENOENT)))
                 json_validator files None Example.fresh
  = (Raise JavaNotFoundException, after_one_run json_validator None).
Proof. repeat split; vm_compute; reflexivity. Qed.

Lemma get_messages_returns_messages_witness :
  get_messages (js := MiniJson.lib) json_host files
               (with_rules [u "Element"] [u ".*"] json_validator,
                Example.fresh)
  = (Ok (JList json_report_messages),
     (with_rules [u "Element"] [u ".*"] json_validator,
      after_one_run json_validator (Some (u "json")))).
Proof.
  assert (H : _run_validator json_host json_validator files
                             (Some (u "json")) Example.fresh
              = (Ok json_report, after_one_run json_validator (Some (u "json"))))
    by (vm_compute; reflexivity).
  apply (proj1 (proj2 (@get_messages_returns_messages MiniJson.lib json_host
                         json_validator files Example.fresh _ _ H))
           [(u "messages", JList json_report_messages)]).
  - vm_compute. reflexivity.
  - reflexivity.
Defined.

(** The site, with [node_modules] on the blacklist: the loop runs on the
    start and on [docs] only. *)
Lemma all_files_prunes_blacklisted_witness :
  all_files (fn := Glob.lib) (u "site") site (OnePattern (u "*.html"))
            (Some [u "node_modules"]) true
  = Ok [u "site/index.html"; u "site/docs/index.html"] /\
  visited site (Some [u "node_modules"]) true = Ok [[]; [u "docs"]] /\
  forall rel, In rel [[]; [u "docs"]] ->
    (exists sub, dir_at site rel = Some sub)
    /\ forall b, In b [u "node_modules"] -> ~ In b rel.
Proof.
  split; [vm_compute; reflexivity|].
  split; [vm_compute; reflexivity|].
  apply (proj1 (@all_files_prunes_blacklisted Glob.lib (u "site") site
                  (OnePattern (u "*.html")) (Some [u "node_modules"]) true
                  eq_refl)).
  vm_compute. reflexivity.
Defined.

(** * Further properties *)

(** ** Quote normalization and line splitting *)

(** X1.  [_normalize_string] is idempotent and keeps the length of the
    text. *)
Theorem normalize_string_idempotent_same_length (s : str) :
  _normalize_string (_normalize_string s) = _normalize_string s /\
  length (_normalize_string s) = length s.
Proof.
  split; [apply normalize_string_idem|].
  rewrite normalize_string_map. apply length_map.
Qed.

Lemma normalize_char_linebreak (c : char) :
  N.eqb (normalize_char c) CR = N.eqb c CR /\
  N.eqb (normalize_char c) LF = N.eqb c LF /\
  is_linebreak (normalize_char c) = is_linebreak c.
Proof.
  unfold normalize_char.
  destruct (N.eqb c ldquo) eqn:E1.
  - apply N.eqb_eq in E1; subst; repeat split; reflexivity.
  - destruct (N.eqb c rdquo) eqn:E2.
    + apply N.eqb_eq in E2; subst; repeat split; reflexivity.
    + repeat split; reflexivity.
Qed.

Lemma splitlines_from_map (n : nat) :
  forall cur s, length s <= n ->
    splitlines_from (List.map normalize_char cur) (List.map normalize_char s)
    = List.map (List.map normalize_char) (splitlines_from cur s).
Proof.
  assert (Hnil : forall cur,
             splitlines_from (List.map normalize_char cur) []
             = List.map (List.map normalize_char) (splitlines_from cur [])).
  { intros [|c cur]; [reflexivity|].
    cbn [splitlines_from List.map]. rewrite map_rev. reflexivity. }
  induction n as [|n IH]; intros cur s Hn.
  - destruct s; [apply Hnil | simpl in Hn; lia].
  - destruct s as [|c s]; [apply Hnil|].
    simpl in Hn. cbn [List.map splitlines_from].
    destruct (normalize_char_linebreak c) as (Hcr & _ & Hlb).
    rewrite Hcr, Hlb.
    destruct (N.eqb c CR).
    + destruct s as [|d s]; cbn [List.map].
      * rewrite map_rev; reflexivity.
      * destruct (normalize_char_linebreak d) as (_ & Hlf & _).
        rewrite Hlf. simpl in Hn.
        destruct (N.eqb d LF); cbn [List.map]; rewrite map_rev; f_equal.
        -- apply (IH [] s); lia.
        -- apply (IH [] (d :: s)); simpl; lia.
    + destruct (is_linebreak c); cbn [List.map].
      * rewrite map_rev. f_equal. apply (IH [] s); lia.
      * apply (IH (c :: cur) s); lia.
Qed.

(** X2.  Normalizing the quotes of a text and then splitting it into lines
    gives the lines of the text, each normalized: no line boundary appears
    or disappears. *)
Theorem splitlines_normalize_string (s : str) :
  splitlines (_normalize_string s)
  = List.map _normalize_string (splitlines s).
Proof.
  rewrite normalize_string_map. unfold splitlines.
  change (@nil char) with (List.map normalize_char []) at 1.
  rewrite (splitlines_from_map (n := length s) [] s (le_n _)).
  apply map_ext; intros l. symmetry; apply normalize_string_map.
Qed.

(** ** The announcements of the Java runtime *)

Lemma strip_from_line (l cur rest : str) :
  ~ In LF l ->
  strip_java_cruft_from cur (l ++ rest)
  = strip_java_cruft_from (rev l ++ cur) rest.
Proof.
  revert cur; induction l as [|c l IH]; intros cur Hl; [reflexivity|].
  cbn [app strip_java_cruft_from].
  destruct (N.eqb c LF) eqn:E.
  - apply N.eqb_eq in E; subst. exfalso; apply Hl; left; reflexivity.
  - rewrite IH by (intros H; apply Hl; right; exact H).
    simpl. rewrite <- app_assoc. reflexivity.
Qed.

Lemma strip_lines (lines : list str) (last : str) :
  Forall (fun l => ~ In LF l) lines -> ~ In LF last ->
  strip_java_cruft (Example.text_of lines ++ last)
  = Example.text_of (filter (fun l => negb (is_java_cruft l)) lines) ++ last.
Proof.
  unfold strip_java_cruft. intros Hl Hlast.
  induction Hl as [|l lines Hl _ IH].
  - simpl. rewrite <- (app_nil_r last) at 1.
    rewrite strip_from_line by exact Hlast. simpl.
    rewrite app_nil_r, rev_involutive. reflexivity.
  - unfold Example.text_of in *. cbn [flat_map filter].
    rewrite <- !app_assoc. rewrite strip_from_line by exact Hl.
    cbn [app strip_java_cruft_from]. rewrite N.eqb_refl.
    rewrite app_nil_r, rev_involutive.
    destruct (is_java_cruft l); cbn [negb flat_map].
    + exact IH.
    + rewrite <- !app_assoc. cbn [app]. rewrite IH. reflexivity.
Qed.

(** X3.  From a text made of lines that end with a line feed, followed by
    a last line without one, the removal of the Java announcements takes
    out exactly the terminated lines that begin with one of the two
    announcements; the other lines, and the unterminated last line even
    when it is an announcement, stay as they are and in their order. *)
Theorem strip_java_cruft_lines (lines : list str) (last : str) :
  Forall (fun l => ~ In LF l) lines -> ~ In LF last ->
  strip_java_cruft (Example.text_of lines ++ last)
  = Example.text_of (filter (fun l => negb (is_java_cruft l)) lines) ++ last.
Proof. exact (@strip_lines lines last). Qed.

Lemma text_lines (s : str) :
  exists lines last,
    s = Example.text_of lines ++ last /\
    Forall (fun l => ~ In LF l) lines /\ ~ In LF last.
Proof.
  induction s as [|c s (lines & last & -> & Hl & Hlast)].
  - exists [], []. repeat split; [constructor | intros []].
  - destruct (N.eqb c LF) eqn:E.
    + apply N.eqb_eq in E; subst.
      exists ([] :: lines), last. repeat split; [|exact Hlast].
      constructor; [intros [] | exact Hl].
    + apply N.eqb_neq in E. destruct lines as [|l lines].
      * exists [], (c :: last). repeat split; [constructor|].
        intros [H|H]; [congruence | exact (Hlast H)].
      * exists ((c :: l) :: lines), last. repeat split; [|exact Hlast].
        inversion Hl; subst. constructor; [|assumption].
        intros [H|H]; [congruence | contradiction].
Qed.

(** X4.  Removing the Java announcements is idempotent. *)
Theorem strip_java_cruft_idempotent (s : str) :
  strip_java_cruft (strip_java_cruft s) = strip_java_cruft s.
Proof.
  destruct (text_lines s) as (lines & last & -> & Hl & Hlast).
  rewrite (@strip_lines lines last Hl Hlast).
  rewrite strip_lines; [|apply Forall_forall; intros l Hin;
                          apply filter_In in Hin as [Hin _];
                          rewrite Forall_forall in Hl; exact (Hl l Hin)
                        |exact Hlast].
  f_equal. f_equal. rewrite filter_filter. apply filter_ext; intros l.
  destruct (is_java_cruft l); reflexivity.
Qed.

(** ** The engine run on the two kinds of platform *)

Section EngineRun.

Variable host : Host.

Lemma converted_files_elsewhere (files : list str) (w : World) :
  Str.eqb (sys_platform host) (u "cygwin") = false ->
  converted_files host files w = (Ok files, w).
Proof. intros H. unfold converted_files. rewrite H. reflexivity. Qed.

(** X5.  Off cygwin, when the engine runs to its end, [_run_validator] has
    launched this one process and its result is computed from the error
    stream alone: the exit status and the standard output are not looked
    at, and an error stream that is not UTF-8 raises [UnicodeDecodeError]. *)
Theorem run_validator_reads_error_stream_only
    (self : Validator) files fmt (w : World) rc out err :
  Str.eqb (sys_platform host) (u "cygwin") = false ->
  spawn host (length (attempts w)) (command self files fmt)
  = Exited rc out err ->
  _run_validator host self files fmt w
  = (match decode_utf8 err with
     | Ok raw => Ok (if opt_is (u "json") fmt then strip_java_cruft raw
                     else _normalize_string (strip_java_cruft raw))
     | Raise x => Raise x
     end,
     logged w (command self files fmt)).
Proof.
  intros Hp Hs.
  rewrite run_validator_steps, (converted_files_elsewhere _ _ Hp).
  rewrite (popen_exited _ _ _ Hs).
  destruct (decode_utf8 err); reflexivity.
Qed.

Lemma cygwin_path_convert_steps (filepath : str) (w : World) :
  _cygwin_path_convert host filepath w
  = (match spawn host (length (attempts w)) (cygpath_command filepath) with
     | Exited rc out _ =>
         if Z.eqb rc 0 then decode_utf8 (strip_bytes out)
         else Raise (CalledProcessError rc out)
     | LaunchRaised x => Raise x
     end,
     logged w (cygpath_command filepath)).
Proof.
  unfold _cygwin_path_convert, check_output, bind, launch, lift, ret, raise,
    cygpath_command, logged.
  destruct (spawn host (length (attempts w)) [u "cygpath"; u "-w"; filepath])
    as [rc out err|x]; [|reflexivity].
  destruct (Z.eqb rc 0); [|reflexivity].
  destruct (decode_utf8 (strip_bytes out)); reflexivity.
Qed.

(** The conversions launch one [cygpath] per path, in order, up to the
    first that raises. *)
Lemma conversions_log (files : list str) :
  forall (w : World) r w1,
    mapM (_cygwin_path_convert host) files w = (r, w1) ->
    exists k, k <= length files /\
      attempts w1
      = attempts w ++ List.map cygpath_command (firstn k files) /\
      (forall fs, r = Ok fs -> k = length files /\ length fs = length files)
      /\ (forall x, r = Raise x -> 1 <= k).
Proof.
  induction files as [|f files IH]; intros w r w1 H.
  - cbn in H. inversion H; subst. exists 0. rewrite app_nil_r.
    split; [lia|]. split; [reflexivity|]. split; [|discriminate].
    intros fs E; inversion E; split; reflexivity.
  - cbn [mapM] in H. unfold bind at 1 in H.
    rewrite cygwin_path_convert_steps in H.
    set (r0 := match spawn host (length (attempts w)) (cygpath_command f) with
               | Exited rc out _ =>
                   if Z.eqb rc 0 then decode_utf8 (strip_bytes out)
                   else Raise (CalledProcessError rc out)
               | LaunchRaised x => Raise x
               end) in H.
    destruct r0 as [p|x].
    + unfold bind at 1 in H.
      destruct (mapM (_cygwin_path_convert host) files
                     (logged w (cygpath_command f))) as [[ps|x] w2] eqn:E.
      * cbn in H. inversion H; subst.
        destruct (IH _ _ _ E) as (k & Hk & Hlog & Hok & _).
        destruct (Hok ps eq_refl) as [-> Hlen].
        exists (S (length files)). cbn [length firstn List.map].
        split; [lia|]. split.
        { rewrite Hlog. cbn [logged attempts]. rewrite <- app_assoc.
          reflexivity. }
        split; [|discriminate].
        intros fs E'; inversion E'; subst. cbn [length]. split; lia.
      * inversion H; subst.
        destruct (IH _ _ _ E) as (k & Hk & Hlog & _ & _).
        exists (S k). cbn [length firstn List.map].
        split; [lia|]. split.
        { rewrite Hlog. cbn [logged attempts]. rewrite <- app_assoc.
          reflexivity. }
        split; [discriminate | intros; lia].
    + inversion H; subst. exists 1. cbn [length firstn List.map].
      split; [lia|]. split; [destruct files; reflexivity|].
      split; [discriminate | intros; lia].
Qed.

(** X6.  On cygwin, when the conversion of a path raises, [_run_validator]
    raises the same exception and the processes launched are [cygpath]
    runs, one for each path up to the one that failed: the engine is not
    launched. *)
Theorem run_validator_conversion_failure
    (self : Validator) files fmt (w : World) x w1 :
  Str.eqb (sys_platform host) (u "cygwin") = true ->
  converted_files host files w = (Raise x, w1) ->
  _run_validator host self files fmt w = (Raise x, w1) /\
  exists k, 1 <= k <= length files /\
    attempts w1 = attempts w ++ List.map cygpath_command (firstn k files).
Proof.
  intros Hp Hc. split.
  - rewrite run_validator_steps, Hc. reflexivity.
  - unfold converted_files in Hc. rewrite Hp in Hc.
    destruct (conversions_log _ _ Hc) as (k & Hk & Hlog & _ & Hr).
    exists k. split; [|exact Hlog]. specialize (Hr x eq_refl). lia.
Qed.

(** X7.  On cygwin a run that returns a text has launched one [cygpath]
    for each path, in order, and then the engine once, on as many converted
    paths. *)
Theorem run_validator_cygwin_launches
    (self : Validator) files fmt (w : World) text w' :
  Str.eqb (sys_platform host) (u "cygwin") = true ->
  _run_validator host self files fmt w = (Ok text, w') ->
  exists converted,
    length converted = length files /\
    attempts w'
    = attempts w ++ List.map cygpath_command files
      ++ [command self converted fmt].
Proof.
  intros Hp. rewrite run_validator_steps.
  destruct (converted_files host files w) as [[fs|x] w1] eqn:Hc;
    [|discriminate].
  destruct (popen_communicate host (command self fs fmt) w1)
    as [[err|x] w2] eqn:Hpo; [|discriminate].
  destruct (decode_utf8 err); [|discriminate].
  intros H; inversion H; subst; clear H.
  destruct (popen_ok_inv _ _ _ Hpo) as (-> & _).
  unfold converted_files in Hc. rewrite Hp in Hc.
  destruct (conversions_log _ _ Hc) as (k & _ & Hlog & Hok & _).
  destruct (Hok fs eq_refl) as [-> Hlen].
  exists fs. split; [exact Hlen|].
  cbn [logged attempts]. rewrite Hlog, firstn_all, <- app_assoc. reflexivity.
Qed.

(** Off cygwin, constructing a validator cannot fail and launches no
    process: the options are stored as given and the archive is looked for
    beside the module file of [vnujar]. *)
Lemma init_elsewhere ig igre eo dl fmt ss va (h : Lists) (w : World) :
  Str.eqb (sys_platform host) (u "cygwin") = false ->
  __init__ host ig igre eo dl fmt ss va (h, w)
  = (Ok (constructed h ig igre eo dl fmt ss va (jar_beside host)),
     (lists_after h ig igre, w)).
Proof.
  intros Hp. rewrite init_steps, Hp. reflexivity.
Qed.

(** X8.  On cygwin, constructing a validator launches [cygpath] once, on
    the location of the archive: when it exits with 0 the location stored
    is its standard output, stripped and decoded (or the decoding raises);
    when it exits with another status the constructor raises
    [CalledProcessError] with that status and output. *)
Theorem init_cygwin ig igre eo dl fmt ss va (h : Lists) (w : World)
    rc out err :
  Str.eqb (sys_platform host) (u "cygwin") = true ->
  spawn host (length (attempts w)) (cygpath_command (jar_beside host))
  = Exited rc out err ->
  __init__ host ig igre eo dl fmt ss va (h, w)
  = (if Z.eqb rc 0 then
       match decode_utf8 (strip_bytes out) with
       | Ok location => Ok (constructed h ig igre eo dl fmt ss va location)
       | Raise x => Raise x
       end
     else Raise (CalledProcessError rc out),
     (lists_after h ig igre,
      logged w (cygpath_command (jar_beside host)))).
Proof.
  intros Hp Hs. rewrite init_steps, Hp.
  rewrite cygwin_path_convert_steps, Hs.
  destruct (Z.eqb rc 0); [|reflexivity].
  destruct (decode_utf8 (strip_bytes out)); reflexivity.
Qed.

End EngineRun.

(** ** [get_messages] and the object *)

Section MessagesObject.

Context {js : JsonLib}.
Variable host : Host.

(** X9.  The configured format has no part in [get_messages]: the same
    validator configured with any other format launches the same command
    and returns the same result. *)
Theorem get_messages_ignores_configured_format
    (self : Validator) (fmt : option str) files (w : World) :
  command (with_format fmt self) files (Some (u "json"))
  = command self files (Some (u "json")) /\
  fst (get_messages host files (with_format fmt self, w))
  = fst (get_messages host files (self, w)) /\
  snd (snd (get_messages host files (with_format fmt self, w)))
  = snd (snd (get_messages host files (self, w))).
Proof.
  assert (Hrun : _run_validator host (with_format fmt self) files
                                (Some (u "json")) w
                 = _run_validator host self files (Some (u "json")) w)
    by reflexivity.
  split; [reflexivity|].
  rewrite !get_messages_run, Hrun.
  destruct (_run_validator host self files (Some (u "json")) w)
    as [[text|x] w1]; [|split; reflexivity].
  destruct (json_loads text); split; reflexivity.
Qed.

(** X10.  [get_messages] never changes the validator, and what the engine
    run raises it raises. *)
Theorem get_messages_keeps_object
    (self : Validator) files (w : World) r self' w' :
  get_messages host files (self, w) = (r, (self', w')) ->
  self' = self /\
  forall x w1,
    _run_validator host self files (Some (u "json")) w = (Raise x, w1) ->
    r = Raise x /\ w' = w1.
Proof.
  intros H. split; [exact (get_messages_self _ _ _ _ H)|].
  intros x w1 Hrun. rewrite get_messages_run, Hrun in H.
  inversion H; subst; split; reflexivity.
Qed.

End MessagesObject.

(** ** More on file discovery *)

Section DiscoveryMore.

Context {fn : FnmatchLib}.

Lemma blacklist_loop_incl (blacklist dirnames : list str) n :
  In n (fold_left (fun dn b => if mem b dn then remove_first b dn else dn)
                  blacklist dirnames) ->
  In n dirnames.
Proof.
  revert dirnames; induction blacklist as [|b blacklist IH];
    intros dirnames H; simpl in H; [exact H|].
  apply IH in H. destruct (mem b dirnames); [|exact H].
  eapply remove_first_In; exact H.
Qed.

Lemma filterR_ok (l : list str) :
  Forall (fun n => truthy n = true) l ->
  exists r, filterR first_is_dot l = Ok r.
Proof.
  induction 1 as [|n l Hn _ [r IH]]; simpl; [exists []; reflexivity|].
  destruct n as [|c n]; [discriminate|]. simpl. rewrite IH.
  eexists; reflexivity.
Qed.

Lemma prune_dirnames_ok blacklist skip_invisible dirnames :
  skip_invisible = false \/ Forall (fun n => truthy n = true) dirnames ->
  exists left, prune_dirnames blacklist skip_invisible dirnames = Ok left.
Proof.
  intros H. unfold prune_dirnames.
  destruct skip_invisible; [|eexists; reflexivity].
  destruct H as [H|H]; [discriminate|].
  destruct (filterR_ok
              (l := fold_left
                      (fun dn b => if mem b dn then remove_first b dn else dn)
                      blacklist dirnames)) as [r Hr].
  { apply Forall_forall; intros n Hn. apply blacklist_loop_incl in Hn.
    rewrite Forall_forall in H; exact (H n Hn). }
  rewrite Hr. eexists; reflexivity.
Qed.

Lemma matched_in_ok skip_invisible root names :
  skip_invisible = false \/ Forall (fun n => truthy n = true) names ->
  exists out, matched_in skip_invisible root names = Ok out.
Proof.
  intros H. induction names as [|n names IH]; simpl;
    [exists []; reflexivity|].
  destruct IH as [out IH].
  { destruct H as [H|H]; [left; exact H | right].
    inversion H; assumption. }
  rewrite IH. destruct skip_invisible.
  - destruct H as [H|H]; [discriminate|]. inversion H; subst.
    destruct n; [discriminate|]. simpl. eexists; reflexivity.
  - eexists; reflexivity.
Qed.

Lemma sequenceR_ok {A} (l : list (result (list A))) :
  Forall (fun r => exists a, r = Ok a) l -> exists out, sequenceR l = Ok out.
Proof.
  induction 1 as [|r l [a ->] _ [out IH]]; simpl; [exists []; reflexivity|].
  rewrite IH. eexists; reflexivity.
Qed.

Lemma collect_ok match_ skip_invisible root filenames :
  skip_invisible = false \/ Forall (fun n => truthy n = true) filenames ->
  exists out, collect match_ skip_invisible root filenames = Ok out.
Proof.
  intros H. unfold collect. apply matched_in_ok.
  destruct H as [H|H]; [left; exact H | right].
  apply Forall_forall; intros n Hn.
  apply in_flat_map in Hn as (p & _ & Hn). apply filter_In in Hn as [Hn _].
  rewrite Forall_forall in H; exact (H n Hn).
Qed.

Lemma walk_collect_ok blacklist skip_invisible match_ (t : tree) :
  forall rel root,
    skip_invisible = false \/ names_nonempty t = true ->
    exists out,
      walk blacklist skip_invisible
           (fun _ r f => collect match_ skip_invisible r f) rel root t
      = Ok out.
Proof.
  induction t as [dirs nondirs IH] using tree_induction.
  intros rel root H. cbn [walk].
  assert (Hparts : skip_invisible = false \/
            (Forall (fun n => truthy n = true) (List.map fst dirs) /\
             Forall (fun n => truthy n = true) nondirs /\
             forall d, In d dirs -> names_nonempty (snd d) = true)).
  { destruct H as [H|H]; [left; exact H | right].
    cbn [names_nonempty] in H.
    apply andb_true_iff in H as [H H3]. apply andb_true_iff in H as [H1 H2].
    rewrite forallb_forall in H1, H2, H3. repeat split.
    - apply Forall_forall; intros n Hn.
      apply in_map_iff in Hn as (d & <- & Hd). exact (H1 d Hd).
    - apply Forall_forall; exact H2.
    - exact H3. }
  destruct (prune_dirnames_ok blacklist (skip_invisible := skip_invisible)
              (dirnames := List.map fst dirs)) as [dirnames Hp].
  { destruct Hparts as [Hs|(H1 & _)]; [left | right]; assumption. }
  rewrite Hp.
  destruct (collect_ok match_ (skip_invisible := skip_invisible) root
              (filenames := nondirs)) as [here Hc].
  { destruct Hparts as [Hs|(_ & H2 & _)]; [left | right]; assumption. }
  rewrite Hc.
  match goal with
  | |- exists out, match sequenceR ?l with _ => _ end = _ =>
      destruct (sequenceR_ok (l := l)) as [deeper Hd]
  end.
  { apply Forall_forall; intros r Hr.
    apply in_map_iff in Hr as (name & <- & _).
    rewrite (lookup_below
               (fun n sub => walk blacklist skip_invisible
                               (fun _ r f => collect match_ skip_invisible r f)
                               (rel ++ [n]) (PosixPath.join root n) sub)).
    destruct (lookup name dirs) as [sub|] eqn:Hl; simpl;
      [|eexists; reflexivity].
    pose proof (lookup_In _ _ Hl) as Hin.
    rewrite Forall_forall in IH. apply (IH _ Hin).
    destruct Hparts as [Hs|(_ & _ & H3)]; [left; exact Hs | right].
    exact (H3 _ Hin). }
  rewrite Hd. eexists; reflexivity.
Qed.

Lemma remove_loop_gone (gone dirnames : list str) n :
  NoDup dirnames -> In n gone ->
  ~ In n (fold_left (fun dn d => remove_first d dn) gone dirnames).
Proof.
  revert dirnames; induction gone as [|d gone IH]; intros dirnames Hnd Hn;
    [contradiction|].
  simpl. destruct Hn as [->|Hn].
  - intros H. apply remove_loop_In in H.
    exact (remove_first_gone n Hnd H).
  - apply IH; [apply remove_first_NoDup; exact Hnd | exact Hn].
Qed.

Lemma filterR_In (l r : list str) n b :
  filterR first_is_dot l = Ok r -> In n l -> first_is_dot n = Ok b ->
  (b = true -> In n r).
Proof.
  revert r; induction l as [|x l IH]; intros r H Hn Hb Hbt; [contradiction|].
  simpl in H. destruct (first_is_dot x) as [bx|] eqn:Ex; [|discriminate].
  destruct (filterR first_is_dot l) as [r'|]; [|discriminate].
  inversion H as [Hr]; clear H. destruct Hn as [Hx|Hn].
  - rewrite Hx, Hb in Ex. inversion Ex as [Hbx]. rewrite <- Hbx, Hbt.
    left; exact Hx.
  - specialize (IH r' eq_refl Hn Hb Hbt).
    destruct bx; [right|]; exact IH.
Qed.

Lemma filterR_all_ok (l r : list str) n :
  filterR first_is_dot l = Ok r -> In n l -> exists b, first_is_dot n = Ok b.
Proof.
  revert r; induction l as [|x l IH]; intros r H Hn; [contradiction|].
  simpl in H. destruct (first_is_dot x) as [bx|] eqn:Ex; [|discriminate].
  destruct (filterR first_is_dot l) as [r'|]; [|discriminate].
  destruct Hn as [->|Hn]; [exists bx; exact Ex | exact (IH r' eq_refl Hn)].
Qed.

(** With hidden entries skipped, a name the pruning leaves does not begin
    with a dot. *)
Lemma prune_dirnames_visible blacklist dirnames left n :
  NoDup dirnames ->
  prune_dirnames blacklist true dirnames = Ok left ->
  In n left -> first_is_dot n = Ok false.
Proof.
  intros Hnd. unfold prune_dirnames.
  destruct (blacklist_loop blacklist Hnd) as (Hnd' & _ & _).
  cbv zeta in Hnd'.
  set (dn := fold_left _ blacklist dirnames) in *.
  destruct (filterR first_is_dot dn) as [inv|x] eqn:Hf; [|discriminate].
  intros H Hn. inversion H; subst; clear H.
  pose proof (remove_loop_In _ _ _ Hn) as Hdn.
  destruct (@filterR_all_ok dn inv n Hf Hdn) as [[|] Hb]; [|exact Hb].
  exfalso. apply (@remove_loop_gone inv dn n Hnd'); [|exact Hn].
  exact (@filterR_In dn inv n true Hf Hdn Hb eq_refl).
Qed.

(** Like [walk_sound], for any property of the names the pruning leaves. *)
Lemma walk_sound_names {A} (P : str -> Prop) (blacklist : list str)
    (skip_invisible : bool)
    (visit : list str -> str -> list str -> result (list A)) :
  (forall names left n,
      NoDup names ->
      prune_dirnames blacklist skip_invisible names = Ok left ->
      In n left -> P n) ->
  forall (t : tree) rel root out,
    unique_names t = true ->
    walk blacklist skip_invisible visit rel root t = Ok out ->
    forall a, In a out ->
      exists rel' dirs nondirs here,
        dir_at t rel' = Some (Dir dirs nondirs) /\
        Forall P rel' /\
        visit (rel ++ rel') (fold_left PosixPath.join rel' root) nondirs
        = Ok here /\
        In a here.
Proof.
  intros HP t.
  induction t as [dirs nondirs IH] using tree_induction.
  intros rel root out Hu Hw a Ha.
  cbn [unique_names] in Hu. apply andb_true_iff in Hu as [Hnd Hsub].
  apply nodupb_NoDup in Hnd.
  cbn [walk] in Hw.
  destruct (prune_dirnames blacklist skip_invisible (List.map fst dirs))
    as [dirnames|x] eqn:Hp; [|discriminate].
  destruct (visit rel root nondirs) as [here|x] eqn:Hv; [|discriminate].
  match type of Hw with
  | match sequenceR ?l with _ => _ end = _ =>
      destruct (sequenceR l) as [deeper|x] eqn:Hs; [|discriminate]
  end.
  inversion Hw; subst; clear Hw.
  apply in_app_or in Ha as [Ha|Ha].
  - exists [], dirs, nondirs, here. rewrite app_nil_r.
    repeat split; auto.
  - destruct (sequenceR_In _ _ Hs Ha) as (xs & Hxs & Hin).
    apply in_map_iff in Hxs as (name & Hname & Hdn).
    rewrite (lookup_below
               (fun n sub => walk blacklist skip_invisible visit
                                  (rel ++ [n]) (PosixPath.join root n) sub))
      in Hname.
    destruct (lookup name dirs) as [sub|] eqn:Hl; simpl in Hname.
    + pose proof (HP _ _ _ Hnd Hp Hdn) as HPn.
      pose proof (lookup_In _ _ Hl) as Hd.
      rewrite Forall_forall in IH. specialize (IH _ Hd). simpl in IH.
      rewrite forallb_forall in Hsub. specialize (Hsub _ Hd). simpl in Hsub.
      destruct (IH _ _ _ Hsub Hname a Hin)
        as (rel' & ds & nds & here' & Hat & Hall & Hvis & Hah).
      exists (name :: rel'), ds, nds, here'.
      repeat split.
      * cbn [dir_at subdirs]. rewrite Hl. exact Hat.
      * constructor; assumption.
      * rewrite <- app_assoc in Hvis. exact Hvis.
      * exact Hah.
    + inversion Hname; subst; contradiction.
Qed.

Lemma matched_in_visible root names out f :
  matched_in true root names = Ok out -> In f out ->
  exists name, In name names /\ first_is_dot name = Ok false /\
               f = PosixPath.join root name.
Proof.
  revert out; induction names as [|n names IH]; simpl; intros out H Hf.
  - inversion H; subst; contradiction.
  - destruct (first_is_dot n) as [hidden|x] eqn:E; [|discriminate].
    destruct (matched_in true root names) as [r|x]; [|discriminate].
    inversion H; subst; clear H.
    destruct hidden.
    + destruct (IH r eq_refl Hf) as (name & Hn & Hv & ->).
      exists name; repeat split; [right; exact Hn | exact Hv].
    + destruct Hf as [<-|Hf].
      * exists n; repeat split; [left; reflexivity | exact E].
      * destruct (IH r eq_refl Hf) as (name & Hn & Hv & ->).
        exists name; repeat split; [right; exact Hn | exact Hv].
Qed.

(** X12.  With hidden entries skipped, in a file system, every path
    returned joins directories and a file none of whose names begins with a
    dot: hidden directories are not entered and hidden files are not
    returned, whatever the match patterns are. *)
Theorem all_files_skips_hidden
    (directory : str) (t : tree) (match_ : match_arg)
    (blacklist : option (list str)) files :
  unique_names t = true ->
  all_files directory t match_ blacklist true = Ok files ->
  forall f, In f files ->
    exists rel dirs nondirs name,
      dir_at t rel = Some (Dir dirs nondirs) /\
      In name nondirs /\
      f = PosixPath.join (fold_left PosixPath.join rel directory) name /\
      Forall (fun n => first_is_dot n = Ok false) (rel ++ [name]).
Proof.
  intros Hu Hf f Hin. unfold all_files in Hf.
  assert (HP : forall names left n,
             NoDup names ->
             prune_dirnames (match blacklist with Some b => b | None => [] end)
                            true names = Ok left ->
             In n left -> first_is_dot n = Ok false).
  { intros names left n Hnd Hp Hn.
    eapply prune_dirnames_visible; eassumption. }
  destruct (@walk_sound_names _ (fun n => first_is_dot n = Ok false)
              _ _ _ HP t [] directory files Hu Hf f Hin)
    as (rel' & ds & nds & here & Hat & Hall & Hvis & Hh).
  unfold collect in Hvis.
  destruct (@matched_in_visible _ _ _ _ Hvis Hh) as (name & Hn & Hv & ->).
  apply in_flat_map in Hn as (pat & _ & Hn).
  apply filter_In in Hn as [Hn _].
  exists rel', ds, nds, name. repeat split; auto.
  apply Forall_app; split; [exact Hall | constructor; [exact Hv | constructor]].
Qed.

Lemma remove_first_keeps (d n : str) (l : list str) :
  In n l -> n <> d -> In n (remove_first d l).
Proof.
  induction l as [|x l IH]; simpl; [tauto|]. intros [->|Hn] Hd.
  - destruct (Str.eqb d n) eqn:E; [|left; reflexivity].
    apply eqb_str_eq in E; congruence.
  - destruct (Str.eqb d x); [exact Hn | right; exact (IH Hn Hd)].
Qed.

Lemma remove_loop_keeps (gone dirnames : list str) n :
  In n dirnames -> ~ In n gone ->
  In n (fold_left (fun dn d => remove_first d dn) gone dirnames).
Proof.
  revert dirnames; induction gone as [|d gone IH]; intros dirnames Hn Hg;
    [exact Hn|].
  simpl. apply IH.
  - apply remove_first_keeps; [exact Hn|].
    intros ->. apply Hg; left; reflexivity.
  - intros H; apply Hg; right; exact H.
Qed.

Lemma filterR_sound (l r : list str) n :
  filterR first_is_dot l = Ok r -> In n r -> first_is_dot n = Ok true.
Proof.
  revert r; induction l as [|x l IH]; intros r H Hn; simpl in H.
  - inversion H; subst; contradiction.
  - destruct (first_is_dot x) as [bx|] eqn:Ex; [|discriminate].
    destruct (filterR first_is_dot l) as [r'|]; [|discriminate].
    inversion H; subst; clear H. destruct bx.
    + destruct Hn as [<-|Hn]; [exact Ex | exact (IH r' eq_refl Hn)].
    + exact (IH r' eq_refl Hn).
Qed.

(** In a file system the pruning keeps every name that is not in the
    blacklist and, when hidden entries are skipped, does not begin with a
    dot. *)
Lemma prune_dirnames_keeps blacklist skip_invisible dirnames left n :
  NoDup dirnames ->
  prune_dirnames blacklist skip_invisible dirnames = Ok left ->
  In n dirnames -> ~ In n blacklist ->
  (skip_invisible = true -> first_is_dot n = Ok false) ->
  In n left.
Proof.
  intros Hnd H Hn Hb Hv. unfold prune_dirnames in H.
  rewrite (blacklist_loop_filter blacklist Hnd) in H.
  assert (Hdn : In n (filter (fun x => negb (mem x blacklist)) dirnames)).
  { apply filter_In; split; [exact Hn|]. apply negb_true_iff.
    destruct (mem n blacklist) eqn:E; [|reflexivity].
    apply mem_In in E; contradiction. }
  destruct skip_invisible.
  - destruct (filterR first_is_dot _) as [inv|x] eqn:Hf; [|discriminate].
    inversion H; subst; clear H.
    apply remove_loop_keeps; [exact Hdn|].
    intros Hin. pose proof (@filterR_sound _ _ _ Hf Hin) as E.
    rewrite (Hv eq_refl) in E; discriminate.
  - inversion H; subst; exact Hdn.
Qed.

Lemma sequenceR_incl {A} (l : list (result (list A))) out r :
  sequenceR l = Ok out -> In r l -> exists xs, r = Ok xs /\ incl xs out.
Proof.
  revert out; induction l as [|[ys|x] l IH]; simpl; intros out H Hr.
  - contradiction.
  - destruct (sequenceR l) as [rest|x]; [|discriminate].
    inversion H; subst; clear H. destruct Hr as [<-|Hr].
    + exists ys; split; [reflexivity | apply incl_appl, incl_refl].
    + destruct (IH rest eq_refl Hr) as (xs & -> & Hi).
      exists xs; split; [reflexivity | apply incl_appr, Hi].
  - discriminate.
Qed.

(** The body runs on every directory that is reached through names the
    pruning keeps, and what it contributes there is part of the result. *)
Lemma walk_complete {A} (blacklist : list str) (skip_invisible : bool)
    (visit : list str -> str -> list str -> result (list A))
    (rel' : list str) :
  forall (t : tree) rel root out dirs nondirs,
    unique_names t = true ->
    walk blacklist skip_invisible visit rel root t = Ok out ->
    dir_at t rel' = Some (Dir dirs nondirs) ->
    Forall (fun n => ~ In n blacklist /\
                     (skip_invisible = true -> first_is_dot n = Ok false))
           rel' ->
    exists here,
      visit (rel ++ rel') (fold_left PosixPath.join rel' root) nondirs
      = Ok here /\ incl here out.
Proof.
  induction rel' as [|n rel' IH];
    intros [ds fl] rel root out dirs nondirs Hu Hw Hat Hall;
    cbn [walk] in Hw;
    destruct (prune_dirnames blacklist skip_invisible (List.map fst ds))
      as [dirnames|x] eqn:Hp; try discriminate;
    destruct (visit rel root fl) as [here|x] eqn:Hv; try discriminate;
    match type of Hw with
    | match sequenceR ?l with _ => _ end = _ =>
        destruct (sequenceR l) as [deeper|x] eqn:Hs; [|discriminate]
    end;
    inversion Hw; subst; clear Hw.
  - cbn in Hat. inversion Hat; subst. exists here. rewrite app_nil_r.
    split; [exact Hv | apply incl_appl, incl_refl].
  - cbn [dir_at subdirs] in Hat.
    destruct (lookup n ds) as [sub|] eqn:Hl; [|discriminate].
    cbn [unique_names] in Hu. apply andb_true_iff in Hu as [Hnd Hsub].
    apply nodupb_NoDup in Hnd.
    pose proof (lookup_In _ _ Hl) as Hd.
    rewrite forallb_forall in Hsub. specialize (Hsub _ Hd). simpl in Hsub.
    inversion Hall as [|? ? [Hnb Hnv] Hall']; subst.
    assert (Hn : In n dirnames).
    { eapply prune_dirnames_keeps; try eassumption.
      apply in_map_iff. exists (n, sub); split; [reflexivity | exact Hd]. }
    destruct (sequenceR_incl _ _ Hs
                (in_map (fun name =>
                           match lookup name
                                   (List.map
                                      (fun d =>
                                         (fst d,
                                          walk blacklist skip_invisible visit
                                               (rel ++ [fst d])
                                               (PosixPath.join root (fst d))
                                               (snd d))) ds) with
                           | Some r => r
                           | None => Ok []
                           end) dirnames n Hn))
      as (xs & Hxs & Hincl).
    rewrite (lookup_below
               (fun m sub0 => walk blacklist skip_invisible visit
                                   (rel ++ [m]) (PosixPath.join root m) sub0))
      in Hxs.
    rewrite Hl in Hxs. simpl in Hxs.
    destruct (IH sub (rel ++ [n]) (PosixPath.join root n) xs dirs nondirs
                 Hsub Hxs Hat Hall') as (here' & Hv' & Hi').
    exists here'. split.
    + rewrite <- app_assoc in Hv'. exact Hv'.
    + intros a Ha. apply in_or_app; right. apply Hincl, Hi', Ha.
Qed.

Lemma matched_in_complete skip_invisible root names out name :
  matched_in skip_invisible root names = Ok out ->
  In name names ->
  (skip_invisible = true -> first_is_dot name = Ok false) ->
  In (PosixPath.join root name) out.
Proof.
  revert out; induction names as [|n names IH]; simpl; intros out H Hn Hv;
    [contradiction|].
  destruct (if skip_invisible then first_is_dot n else Ok false)
    as [hidden|x] eqn:E; [|discriminate].
  destruct (matched_in skip_invisible root names) as [r|x]; [|discriminate].
  inversion H; subst; clear H. destruct Hn as [->|Hn].
  - assert (hidden = false) as ->.
    { destruct skip_invisible.
      - rewrite (Hv eq_refl) in E. inversion E; reflexivity.
      - inversion E; reflexivity. }
    left; reflexivity.
  - specialize (IH r eq_refl Hn Hv). destruct hidden; [|right]; exact IH.
Qed.

(** X13.  In a file system, when [all_files] returns, it returns every
    file that matches one of the patterns, is not hidden when hidden entries
    are skipped, and lies in a directory reached from the start through
    names that are not in the blacklist and, when hidden entries are
    skipped, not hidden. *)
Theorem all_files_finds_matching
    (directory : str) (t : tree) (match_ : match_arg)
    (blacklist : option (list str)) (skip_invisible : bool) files
    rel dirs nondirs name pattern :
  unique_names t = true ->
  all_files directory t match_ blacklist skip_invisible = Ok files ->
  dir_at t rel = Some (Dir dirs nondirs) ->
  Forall (fun n => ~ In n (blacklist_of blacklist) /\
                   (skip_invisible = true -> first_is_dot n = Ok false))
         rel ->
  In name nondirs ->
  In pattern (match_list match_) ->
  fnmatch_match pattern name = true ->
  (skip_invisible = true -> first_is_dot name = Ok false) ->
  In (PosixPath.join (fold_left PosixPath.join rel directory) name) files.
Proof.
  intros Hu Hf Hat Hall Hname Hpat Hm Hv. unfold all_files in Hf.
  destruct (@walk_complete _ _ _ _ rel t [] directory files dirs nondirs
              Hu Hf Hat Hall) as (here & Hc & Hi).
  apply Hi. unfold collect in Hc.
  eapply matched_in_complete; [exact Hc | | exact Hv].
  apply in_flat_map. exists pattern; split; [exact Hpat|].
  apply filter_In; split; assumption.
Qed.

Lemma matched_in_all root names :
  matched_in false root names = Ok (List.map (PosixPath.join root) names).
Proof.
  induction names as [|n names IH]; simpl; [reflexivity|].
  rewrite IH. reflexivity.
Qed.

(** X14.  With hidden entries not skipped, the result begins with the
    files of the start directory, pattern by pattern in the order of the
    patterns and, for one pattern, in the order of the directory; a file
    that matches several patterns is there once for each of them.  What the
    sub-directories give comes after. *)
Theorem all_files_starts_with_own_files
    (directory : str) (dirs : list (str * tree)) (nondirs : list str)
    (match_ : match_arg) (blacklist : option (list str)) :
  exists deeper,
    all_files directory (Dir dirs nondirs) match_ blacklist false
    = Ok (flat_map (fun pattern =>
                      List.map (PosixPath.join directory)
                               (filter (fnmatch_match pattern) nondirs))
                   (match_list match_)
          ++ deeper).
Proof.
  destruct (@walk_collect_ok (blacklist_of blacklist) false
              (match_list match_) (Dir dirs nondirs) [] directory
              (or_introl eq_refl)) as [out Hout].
  unfold all_files. fold (blacklist_of blacklist). 
  cbn [walk] in Hout |- *.
  destruct (prune_dirnames (blacklist_of blacklist) false (List.map fst dirs))
    as [dirnames|x]; [|discriminate].
  unfold collect at 1 in Hout. unfold collect at 1.
  rewrite matched_in_all in Hout |- *.
  match type of Hout with
  | match sequenceR ?l with _ => _ end = _ =>
      destruct (sequenceR l) as [deeper|x]; [|discriminate]
  end.
  exists deeper. f_equal. f_equal. clear Hout.
  unfold fnmatch_filter.
  induction (match_list match_) as [|p ps IH]; simpl; [reflexivity|].
  rewrite map_app, IH. reflexivity.
Qed.

End DiscoveryMore.

(** ** More on [validate] *)

Section ValidateMore.

Context {re : ReLib} {js : JsonLib}.
Variable host : Host.

(** X15.  What the engine run raises, [validate] raises, and the validator
    is as it was. *)
Theorem validate_engine_failure (self : Validator) files (w : World) x w' :
  _run_validator host self files None w = (Raise x, w') ->
  validate host files (self, w) = (Raise x, (self, w')).
Proof.
  intros H. rewrite validate_run, remaining_lines_run, H. reflexivity.
Qed.

Lemma drop_patterns_state {S} (patterns e : list str) (s : S) :
  snd (drop_patterns patterns e s) = s.
Proof.
  destruct (compile_all patterns) as [rs|] eqn:E.
  - rewrite (drop_patterns_filter _ _ _ E). reflexivity.
  - destruct (drop_patterns_raises _ e s E) as (i & _ & _ & ->). reflexivity.
Qed.

(** X16.  A validator whose format is not ['xml'] is never changed by
    [validate], whatever the call returns or raises. *)
Theorem validate_keeps_object_unless_xml
    (self : Validator) files (w : World) r self' w' :
  opt_is (u "xml") (format self) = false ->
  validate host files (self, w) = (r, (self', w')) ->
  self' = self.
Proof.
  intros Hf H. rewrite validate_run, remaining_lines_run in H.
  destruct (_run_validator host self files None w) as [[text|x] w1];
    [|inversion H; reflexivity].
  cbv zeta in H.
  assert (Ho : after_override self (nonempty_lines text) = self).
  { unfold after_override, xml_override. rewrite Hf. reflexivity. }
  rewrite Ho in H.
  pose proof (drop_patterns_state (ignore_re self)
                (drop_literals (ignore self) (nonempty_lines text))
                (self, w1)) as Hs.
  destruct (drop_patterns (ignore_re self)
              (drop_literals (ignore self) (nonempty_lines text)) (self, w1))
    as [[e|x] s1]; simpl in Hs; subst s1; inversion H; reflexivity.
Qed.

(** A count comes from an engine run that returned a text and from
    patterns that all compile. *)
Lemma validate_ok_inv (self : Validator) files (w : World) n :
  fst (validate host files (self, w)) = Ok n ->
  exists text w' regexes,
    _run_validator host self files None w = (Ok text, w') /\
    compile_all (ignore_re self) = Some regexes /\
    n = length (filter (kept (ignore (after_override self
                                        (nonempty_lines text))) regexes)
                       (splitlines text)).
Proof.
  intros H.
  destruct (_run_validator host self files None w) as [[text|x] w'] eqn:Hrun.
  - destruct (compile_all (ignore_re self)) as [rs|] eqn:Hrs.
    + exists text, w', rs. repeat split.
      rewrite validate_run, (remaining_lines_kept _ _ _ _ Hrun Hrs) in H.
      inversion H; reflexivity.
    + destruct (validate_bad_pattern _ _ _ _ Hrun Hrs) as (i & _ & _ & Hv).
      rewrite Hv in H; discriminate.
  - rewrite validate_run, remaining_lines_run, Hrun in H. discriminate.
Qed.

Lemma filter_length_mono {A} (p q : A -> bool) (l : list A) :
  (forall x, p x = true -> q x = true) ->
  length (filter p l) <= length (filter q l).
Proof.
  intros H. induction l as [|x l IH]; simpl; [apply le_n|].
  destruct (p x) eqn:E.
  - rewrite (H x E). simpl. lia.
  - destruct (q x); simpl; lia.
Qed.

(** X17.  The count is at most the number of non-empty lines of the text
    the engine run returned. *)
Theorem validate_count_bounded
    (self : Validator) files (w : World) text w' n :
  _run_validator host self files None w = (Ok text, w') ->
  fst (validate host files (self, w)) = Ok n ->
  n <= length (nonempty_lines text).
Proof.
  intros Hrun H.
  destruct (validate_ok_inv _ _ _ H) as (text' & w1 & rs & Hrun' & _ & ->).
  rewrite Hrun in Hrun'. inversion Hrun'; subst.
  unfold nonempty_lines. apply filter_length_mono. intros l.
  unfold kept. destruct (truthy l); [reflexivity | discriminate].
Qed.

Lemma existsb_perm {A} (f : A -> bool) (l l' : list A) :
  Permutation l l' -> existsb f l = existsb f l'.
Proof.
  induction 1; simpl; try congruence.
  destruct (f x), (f y); reflexivity.
Qed.

Lemma compile_all_perm (patterns patterns' : list str) :
  Permutation patterns patterns' ->
  forall regexes,
    compile_all patterns = Some regexes ->
    exists regexes',
      compile_all patterns' = Some regexes' /\ Permutation regexes regexes'.
Proof.
  induction 1 as [|i l l' _ IH|i j l|l l' l'' _ IH1 _ IH2];
    intros rs H.
  - exists rs; split; [exact H | apply Permutation_refl].
  - simpl in *. destruct (re_compile i) as [r|]; [|discriminate].
    destruct (compile_all l) as [rs0|]; [|discriminate].
    inversion H; subst. destruct (IH rs0 eq_refl) as (rs' & -> & Hp).
    exists (r :: rs'); split; [reflexivity | constructor; exact Hp].
  - simpl in *. destruct (re_compile j) as [rj|]; [|discriminate].
    destruct (re_compile i) as [ri|]; [|discriminate].
    destruct (compile_all l) as [rs0|]; [|discriminate].
    inversion H; subst.
    exists (ri :: rj :: rs0); split; [reflexivity | apply perm_swap].
  - destruct (IH1 rs H) as (rs' & H' & Hp1).
    destruct (IH2 rs' H') as (rs'' & H'' & Hp2).
    exists rs''; split; [exact H'' | eapply Permutation_trans; eassumption].
Qed.

(** X18.  The order of the ignore rules does not matter to the count: two
    validators that differ only in the order of their literals and of their
    patterns, all of which compile, return the same on the same run. *)
Theorem validate_order_of_rules
    (v : Validator) literals literals' patterns patterns' regexes
    files (w : World) :
  Permutation literals literals' ->
  Permutation patterns patterns' ->
  compile_all patterns = Some regexes ->
  fst (validate host files (with_rules literals patterns v, w))
  = fst (validate host files (with_rules literals' patterns' v, w)).
Proof.
  intros Hl Hp Hrs.
  destruct (compile_all_perm Hp Hrs) as (rs' & Hrs' & Hpr).
  destruct (_run_validator host v files None w) as [[text|x] w'] eqn:Hrun.
  - rewrite !validate_run.
    rewrite (remaining_lines_kept host (with_rules literals patterns v)
               files w (text := text) (w' := w') (regexes := regexes)
               Hrun Hrs).
    rewrite (remaining_lines_kept host (with_rules literals' patterns' v)
               files w (text := text) (w' := w') (regexes := rs')
               Hrun Hrs').
    cbn [fst]. f_equal. f_equal. apply filter_ext; intros l.
    unfold kept, hit_by_pattern. rewrite (existsb_perm _ Hpr).
    f_equal. f_equal. f_equal. unfold after_override, xml_override.
    cbn [format with_rules].
    destruct (opt_is (u "xml") (format v)
              && (length (nonempty_lines text) <? 4)); [reflexivity|].
    cbn [ignore with_rules]. unfold hit_by_literal.
    apply existsb_perm; exact Hl.
  - rewrite !validate_run, !remaining_lines_run.
    change (_run_validator host (with_rules literals patterns v) files None w)
      with (_run_validator host v files None w).
    change (_run_validator host (with_rules literals' patterns' v) files
                           None w)
      with (_run_validator host v files None w).
    rewrite Hrun. reflexivity.
Qed.

Lemma compile_all_app (a b : list str) regexes :
  compile_all (a ++ b) = Some regexes ->
  exists ra rb, compile_all a = Some ra /\ compile_all b = Some rb /\
                regexes = ra ++ rb.
Proof.
  revert regexes; induction a as [|i a IH]; intros rs H; simpl in *.
  - exists [], rs; repeat split; exact H.
  - destruct (re_compile i) as [r|]; [|discriminate].
    destruct (compile_all (a ++ b)) as [rs0|]; [|discriminate].
    inversion H; subst. destruct (IH rs0 eq_refl) as (ra & rb & -> & -> & ->).
    exists (r :: ra), rb; repeat split.
Qed.

(** X19.  More ignore rules never give a larger count: when a validator
    and the same validator with further literals and further patterns both
    return a count on the same run, the second count is at most the
    first. *)
Theorem validate_more_rules_count_less
    (v : Validator) literals more patterns more_patterns
    files (w : World) n n' :
  fst (validate host files (with_rules literals patterns v, w)) = Ok n ->
  fst (validate host files
         (with_rules (literals ++ more) (patterns ++ more_patterns) v, w))
  = Ok n' ->
  n' <= n.
Proof.
  intros H H'.
  destruct (validate_ok_inv _ _ _ H) as (text & w1 & rs & Hrun & Hrs & ->).
  destruct (validate_ok_inv _ _ _ H') as (text' & w1' & rs' & Hrun' & Hrs' & ->).
  change (_run_validator host (with_rules (literals ++ more)
                                 (patterns ++ more_patterns) v) files None w)
    with (_run_validator host (with_rules literals patterns v) files None w)
    in Hrun'.
  rewrite Hrun in Hrun'. inversion Hrun'; subst text' w1'.
  cbn [ignore_re with_rules] in Hrs, Hrs'.
  destruct (compile_all_app _ _ Hrs') as (ra & rb & Ha & _ & ->).
  rewrite Hrs in Ha. inversion Ha; subst ra.
  apply filter_length_mono. intros l.
  unfold kept, hit_by_pattern, after_override, xml_override.
  cbn [format with_rules].
  rewrite existsb_app, negb_orb.
  destruct (opt_is (u "xml") (format v) && (length (nonempty_lines text) <? 4)).
  - cbn [ignore set_ignore].
    destruct (truthy l), (hit_by_literal DEFAULT_IGNORE_XML l),
      (existsb (fun regex => re_search regex l) rs),
      (existsb (fun regex => re_search regex l) rb);
      simpl; intros E; solve [reflexivity | discriminate E].
  - cbn [ignore with_rules]. unfold hit_by_literal.
    rewrite existsb_app, negb_orb.
    destruct (truthy l), (existsb (fun i => contains i l) literals),
      (existsb (fun i => contains i l) more),
      (existsb (fun regex => re_search regex l) rs),
      (existsb (fun regex => re_search regex l) rb);
      simpl; intros E; solve [reflexivity | discriminate E].
Qed.

Lemma validate_format (self : Validator) files (w : World) r self' w' :
  validate host files (self, w) = (r, (self', w')) ->
  format self' = format self.
Proof.
  intros H. apply validate_self in H. destruct H as [->| ->]; reflexivity.
Qed.

(** A validator whose format is not ['xml'] keeps the literal list it was
    constructed with, and the constructor puts the built-in literal into
    it. *)
Lemma reachable_ignore (v : Validator) :
  reachable host v ->
  opt_is (u "xml") (format v) = false ->
  incl DEFAULT_IGNORE (ignore v).
Proof.
  induction 1 as [ig igre eo dl fmt ss va [h w] v s' H
                 | v files w r v' w' _ IH H
                 | v files w r v' w' _ IH H]; intros Hf.
  - destruct (init_fields _ _ _ _ _ _ _ _ _ _ H) as (Hi & _ & _).
    rewrite Hi, <- default_literals_plain.
    apply incl_map, read_ignore_default.
  - pose proof (validate_format _ _ _ H) as Hfmt. rewrite Hfmt in Hf.
    pose proof (IH Hf) as Hu.
    rewrite validate_run, remaining_lines_run in H.
    destruct (_run_validator host v files None w) as [[text|x] w1];
      [|inversion H; subst; exact Hu].
    cbv zeta in H.
    assert (Ho : after_override v (nonempty_lines text) = v).
    { unfold after_override, xml_override. rewrite Hf. reflexivity. }
    rewrite Ho in H.
    pose proof (drop_patterns_state (ignore_re v)
                  (drop_literals (ignore v) (nonempty_lines text))
                  (v, w1)) as Hs.
    destruct (drop_patterns (ignore_re v)
                (drop_literals (ignore v) (nonempty_lines text)) (v, w1))
      as [[e|x] s1]; simpl in Hs; subst s1; inversion H; subst; exact Hu.
  - apply get_messages_self in H; subst. exact (IH Hf).
Qed.

(** X20.  For a validator whose format is not ['xml'], whatever the
    arguments of the constructor and whatever calls came before, the
    literal list contains the built-in literal, and no line that contains
    the empty JSON report is counted. *)
Theorem empty_json_report_never_counted (v : Validator) :
  reachable host v ->
  opt_is (u "xml") (format v) = false ->
  In (u "{" ++ dquote :: u "messages" ++ dquote :: u ":[]}") (ignore v) /\
  forall files w n s,
    validate host files (v, w) = (Ok n, s) ->
    exists e, remaining_lines host files (v, w) = (Ok e, s) /\
              n = length e /\
              Forall (fun l =>
                        contains (u "{" ++ dquote :: u "messages" ++ dquote
                                    :: u ":[]}") l = false) e.
Proof.
  intros Hv Hf.
  assert (Hin : In (u "{" ++ dquote :: u "messages" ++ dquote :: u ":[]}")
                   (ignore v)).
  { apply (reachable_ignore Hv Hf). left; reflexivity. }
  split; [exact Hin|].
  intros files w n s Hval. rewrite validate_run in Hval.
  destruct (remaining_lines host files (v, w)) as [[e|x] s1] eqn:Hrem;
    inversion Hval; subst; clear Hval.
  exists e; repeat split.
  rewrite remaining_lines_run in Hrem.
  destruct (_run_validator host v files None w) as [[text|x] w1];
    [|discriminate]. cbv zeta in Hrem.
  assert (Ho : after_override v (nonempty_lines text) = v).
  { unfold after_override, xml_override. rewrite Hf. reflexivity. }
  rewrite Ho in Hrem.
  destruct (compile_all (ignore_re v)) as [rs|] eqn:Hrs.
  - rewrite (drop_patterns_filter _ _ _ Hrs), drop_literals_filter in Hrem.
    inversion Hrem; subst; clear Hrem.
    apply Forall_forall; intros l Hl.
    apply filter_In in Hl as [Hl _]. apply filter_In in Hl as [_ Hl].
    apply negb_true_iff in Hl. unfold hit_by_literal in Hl.
    destruct (contains (u "{" ++ dquote :: u "messages" ++ dquote
                          :: u ":[]}") l) eqn:E; [|reflexivity].
    assert (existsb (fun i => contains i l) (ignore v) = true).
    { apply existsb_exists. eexists; split; [exact Hin | exact E]. }
    congruence.
  - destruct (drop_patterns_raises _ (drop_literals (ignore v)
                (nonempty_lines text)) (v, w1) Hrs) as (i & _ & _ & Hr).
    rewrite Hr in Hrem; discriminate.
Qed.

(** X21.  When one of the ignore patterns does not compile, [validate]
    raises [re.error] for such a pattern once the engine has run, whatever
    the validator and whatever the text, even when no line is left to
    filter; the object is then as the rule for the format ['xml'] leaves
    it, so a validator whose format is not ['xml'] is as it was. *)
Theorem validate_raises_on_bad_pattern
    (self : Validator) files (w : World) text w' :
  _run_validator host self files None w = (Ok text, w') ->
  compile_all (ignore_re self) = None ->
  exists i, In i (ignore_re self) /\ re_compile i = None /\
    validate host files (self, w)
    = (Raise (ReError i), (after_override self (nonempty_lines text), w')) /\
    (opt_is (u "xml") (format self) = false ->
     after_override self (nonempty_lines text) = self).
Proof.
  intros Hrun Hre.
  destruct (validate_bad_pattern _ _ _ _ Hrun Hre) as (i & Hi & Hc & Hv).
  exists i. repeat split; [exact Hi | exact Hc | exact Hv |].
  intros Hf. unfold after_override, xml_override. rewrite Hf. reflexivity.
Qed.

End ValidateMore.

(** ** The further properties on the worked cases *)

Import MoreCases.

Lemma strip_java_cruft_lines_witness :
  strip_java_cruft (Example.text_of announced ++ unterminated)
  = Example.text_of [u "a.html:1.1-1.5: error: Stray end tag"]
    ++ unterminated.
Proof.
  apply (@strip_java_cruft_lines announced unterminated).
  - repeat constructor; intros H; vm_compute in H; intuition discriminate.
  - intros H; vm_compute in H; intuition discriminate.
Defined.

Lemma run_validator_reads_error_stream_only_witness :
  _run_validator (exits 1 (Example.encode (u "ignored"))
                        (Example.encode (Example.text_of text_report)))
                 text_validator files None Example.fresh
  = (Ok (Example.text_of text_report), after_one_run text_validator None).
Proof.
  rewrite (@run_validator_reads_error_stream_only
             (exits 1 (Example.encode (u "ignored"))
                    (Example.encode (Example.text_of text_report)))
             text_validator files None Example.fresh
             1 (Example.encode (u "ignored"))
             (Example.encode (Example.text_of text_report))
             eq_refl eq_refl).
  vm_compute. reflexivity.
Defined.

Lemma run_validator_conversion_failure_witness :
  _run_validator (cygwin []) text_validator three_files None Example.fresh
  = (Raise (CalledProcessError 1 (Example.encode (u "cygpath: no such file"))),
     {| attempts := [cygpath_command (u "index.html");
                     cygpath_command (u "missing.html")] |}).
Proof.
  apply (@run_validator_conversion_failure (cygwin []) text_validator
           three_files None Example.fresh).
  - reflexivity.
  - vm_compute. reflexivity.
Defined.

Lemma run_validator_cygwin_launches_witness :
  exists converted,
    length converted = length two_files /\
    attempts (snd (_run_validator (cygwin (Example.text_of text_report))
                                  text_validator two_files None
                                  Example.fresh))
    = attempts Example.fresh ++ List.map cygpath_command two_files
      ++ [command text_validator converted None].
Proof.
  apply (@run_validator_cygwin_launches
           (cygwin (Example.text_of text_report)) text_validator two_files
           None Example.fresh (Example.text_of text_report)).
  - reflexivity.
  - vm_compute. reflexivity.
Defined.

Lemma init_cygwin_witness :
  __init__ (cygwin []) None None false true None None None
           ([], Example.fresh)
  = (Ok (constructed [] None None false true None None None
           (u "C:/cygwin64//usr/lib/python3/site-packages/vnujar/vnu.jar")),
     ([],
      {| attempts :=
           [cygpath_command
              (u "/usr/lib/python3/site-packages/vnujar/vnu.jar")] |})).
Proof.
  etransitivity.
  - apply (@init_cygwin (cygwin []) None None false true None None None
             [] Example.fresh 0
             (Example.encode
                (u "C:/cygwin64/"
                   ++ u "/usr/lib/python3/site-packages/vnujar/vnu.jar"
                   ++ [LF]))
             [] eq_refl).
    vm_compute. reflexivity.
  - vm_compute. reflexivity.
Defined.

Lemma get_messages_keeps_object_witness :
  json_validator = json_validator /\
  forall x w1,
    _run_validator (Example.failing_with_os_errno (OSError (Some 13%Z)))
                   json_validator files (Some (u "json")) Example.fresh
    = (Raise x, w1) ->
    Raise (A := json) (OSError (Some 13%Z)) = Raise x /\
    after_one_run json_validator (Some (u "json")) = w1.
Proof.
  apply (@get_messages_keeps_object MiniJson.lib
           (Example.failing_with_os_errno (OSError (Some 13%Z)))
           json_validator files Example.fresh).
  vm_compute. reflexivity.
Defined.

Lemma all_files_skips_hidden_witness :
  exists rel dirs nondirs name,
    dir_at site rel = Some (Dir dirs nondirs) /\
    In name nondirs /\
    u "site/docs/index.html"
    = PosixPath.join (fold_left PosixPath.join rel (u "site")) name /\
    Forall (fun n => first_is_dot n = Ok false) (rel ++ [name]).
Proof.
  apply (@all_files_skips_hidden Glob.lib (u "site") site
           (OnePattern (u "*.html")) None
           [u "site/index.html"; u "site/node_modules/vendored.html";
            u "site/node_modules/lib/deep.html"; u "site/docs/index.html";
            u "site/docs/node_modules/other.html"]).
  - vm_compute. reflexivity.
  - vm_compute. reflexivity.
  - right; right; right; left. reflexivity.
Defined.

Lemma all_files_finds_matching_witness :
  In (u "site/docs/index.html")
     [u "site/index.html"; u "site/docs/index.html"].
Proof.
  apply (@all_files_finds_matching Glob.lib (u "site") site
           (OnePattern (u "*.html")) (Some [u "node_modules"]) true
           [u "site/index.html"; u "site/docs/index.html"]
           [u "docs"]
           [ (u ".git", Dir [] [u "config.html"]);
             (u "node_modules", Dir [] [u "other.html"]) ]
           [u "index.html"; u ".draft.html"; u "notes.txt"]
           (u "index.html") (u "*.html")).
  - vm_compute. reflexivity.
  - vm_compute. reflexivity.
  - vm_compute. reflexivity.
  - constructor; [|constructor]. split.
    + intros H; vm_compute in H; intuition discriminate.
    + intros _. reflexivity.
  - left; reflexivity.
  - left; reflexivity.
  - vm_compute. reflexivity.
  - intros _. reflexivity.
Defined.

Lemma validate_engine_failure_witness :
  validate (re := MiniRe.lib)
           (Example.failing_with_os_errno (OSError (Some ENOENT)))
           files (xml_validator, Example.fresh)
  = (Raise JavaNotFoundException,
     (xml_validator, after_one_run xml_validator None)).
Proof.
  apply (@validate_engine_failure MiniRe.lib
           (Example.failing_with_os_errno (OSError (Some ENOENT)))
           xml_validator files Example.fresh).
  vm_compute. reflexivity.
Defined.

Lemma validate_keeps_object_unless_xml_witness :
  validate (re := MiniRe.lib) text_host files (text_validator, Example.fresh)
  = (Ok 1, (text_validator, after_one_run text_validator None)) /\
  text_validator = text_validator.
Proof.
  assert (H : validate (re := MiniRe.lib) text_host files
                       (text_validator, Example.fresh)
              = (Ok 1, (text_validator, after_one_run text_validator None)))
    by (vm_compute; reflexivity).
  split; [exact H|].
  exact (@validate_keeps_object_unless_xml MiniRe.lib text_host
           text_validator files Example.fresh (Ok 1) text_validator
           (after_one_run text_validator None) eq_refl H).
Defined.

Lemma validate_count_bounded_witness :
  fst (validate (re := MiniRe.lib) text_host files
                (text_validator, Example.fresh)) = Ok 1 /\
  1 <= length (nonempty_lines (Example.text_of text_report)).
Proof.
  assert (H : fst (validate (re := MiniRe.lib) text_host files
                            (text_validator, Example.fresh)) = Ok 1)
    by (vm_compute; reflexivity).
  split; [exact H|].
  apply (@validate_count_bounded MiniRe.lib text_host text_validator files
           Example.fresh (Example.text_of text_report)
           (after_one_run text_validator None) 1).
  - vm_compute. reflexivity.
  - exact H.
Defined.

Lemma validate_order_of_rules_witness :
  fst (validate (re := MiniRe.lib) text_host files
         (with_rules [u "foo"; u "Stray"] [u "ba+r"; u "warn"]
                     text_validator, Example.fresh))
  = fst (validate (re := MiniRe.lib) text_host files
           (with_rules [u "Stray"; u "foo"] [u "warn"; u "ba+r"]
                       text_validator, Example.fresh)).
Proof.
  apply (@validate_order_of_rules MiniRe.lib text_host text_validator
           [u "foo"; u "Stray"] [u "Stray"; u "foo"]
           [u "ba+r"; u "warn"] [u "warn"; u "ba+r"]
           (regexes_of [u "ba+r"; u "warn"]) files Example.fresh).
  - apply perm_swap.
  - apply perm_swap.
  - vm_compute. reflexivity.
Defined.

Lemma validate_more_rules_count_less_witness :
  fst (validate (re := MiniRe.lib) text_host files
         (with_rules [u "foo"] (ignore_re text_validator) text_validator,
          Example.fresh)) = Ok 1 /\
  fst (validate (re := MiniRe.lib) text_host files
         (with_rules ([u "foo"] ++ [u "Stray"])
                     (ignore_re text_validator ++ [u "warn"]) text_validator,
          Example.fresh)) = Ok 0 /\
  0 <= 1.
Proof.
  assert (H1 : fst (validate (re := MiniRe.lib) text_host files
                      (with_rules [u "foo"] (ignore_re text_validator)
                                  text_validator, Example.fresh)) = Ok 1)
    by (vm_compute; reflexivity).
  assert (H2 : fst (validate (re := MiniRe.lib) text_host files
                      (with_rules ([u "foo"] ++ [u "Stray"])
                                  (ignore_re text_validator ++ [u "warn"])
                                  text_validator, Example.fresh)) = Ok 0)
    by (vm_compute; reflexivity).
  split; [exact H1|]. split; [exact H2|].
  exact (@validate_more_rules_count_less MiniRe.lib text_host text_validator
           [u "foo"] [u "Stray"] (ignore_re text_validator) [u "warn"]
           files Example.fresh 1 0 H1 H2).
Defined.

Lemma empty_json_report_never_counted_witness :
  In (u "{" ++ dquote :: u "messages" ++ dquote :: u ":[]}")
     (ignore text_validator).
Proof.
  assert (H : __init__ text_host (Some 0) (Some 1) false
                true None None None ([[u "foo"]; [u "ba+r"]], Example.fresh)
              = (Ok text_validator,
                 ([[u "foo"] ++ DEFAULT_IGNORE;
                   [u "ba+r"] ++ DEFAULT_IGNORE_RE], Example.fresh)))
    by (vm_compute; reflexivity).
  exact (proj1 (@empty_json_report_never_counted MiniRe.lib MiniJson.lib
                  text_host text_validator
                  (@reach_init MiniRe.lib MiniJson.lib text_host
                     _ _ _ _ _ _ _ _ _ _ H)
                  eq_refl)).
Defined.

Lemma validate_raises_on_bad_pattern_witness :
  exists i,
    In i (ignore_re bad_pattern_validator) /\
    @re_compile MiniRe.lib i = None /\
    validate (re := MiniRe.lib) text_host files
             (bad_pattern_validator, Example.fresh)
    = (Raise (ReError i),
       (after_override bad_pattern_validator
          (nonempty_lines (Example.text_of text_report)),
        after_one_run bad_pattern_validator None)) /\
    (opt_is (u "xml") (format bad_pattern_validator) = false ->
     after_override bad_pattern_validator
       (nonempty_lines (Example.text_of text_report))
     = bad_pattern_validator).
Proof.
  apply (@validate_raises_on_bad_pattern MiniRe.lib text_host
           bad_pattern_validator files Example.fresh
           (Example.text_of text_report)
           (after_one_run bad_pattern_validator None)).
  - vm_compute. reflexivity.
  - vm_compute. reflexivity.
Defined.

(** One list for both arguments, for every host off cygwin. *)
Lemma init_lists_of_one_argument_witness :
  ignore (configured mixed_rules mixed_rules None)
  = List.map _normalize_string
      (given one_list (Some 0) ++ DEFAULT_IGNORE_RE ++ DEFAULT_IGNORE) /\
  ignore_re (configured mixed_rules mixed_rules None)
  = ignore (configured mixed_rules mixed_rules None) /\
  given (fst ([mixed_rules], Example.fresh)) (Some 0)
  = given one_list (Some 0) ++ DEFAULT_IGNORE_RE ++ DEFAULT_IGNORE.
Proof.
  apply (@init_lists_of_one_argument (Example.linux [])
           (Some 0) (Some 0) false true None None None one_list
           Example.fresh).
  - reflexivity.
  - vm_compute. discriminate.
  - vm_compute. reflexivity.
Defined.

(** No Java on the host, under a Python up to 3.6. *)
Lemma run_validator_launch_failure_with_os_errno_witness :
  _run_validator (Example.failing_with_os_errno (OSError (Some ENOENT)))
                 json_validator files None Example.fresh
  = (Raise JavaNotFoundException, after_one_run json_validator None).
Proof.
  exact (proj1
           (@run_validator_launch_failure_with_os_errno
              (Example.failing_with_os_errno (OSError (Some ENOENT)))
              json_validator files None Example.fresh files Example.fresh
              (OSError (Some ENOENT)) eq_refl eq_refl eq_refl) eq_refl).
Defined.

(** No permission to run Java, under a Python from 3.7 on. *)
Lemma run_validator_launch_failure_without_os_errno_witness :
  _run_validator (Example.failing (OSError (Some 13%Z))) json_validator
                 files None Example.fresh
  = (Raise AttributeError, after_one_run json_validator None).
Proof.
  exact (@run_validator_launch_failure_without_os_errno
           (Example.failing (OSError (Some 13%Z))) json_validator files
           None Example.fresh files Example.fresh (Some 13%Z)
           eq_refl eq_refl eq_refl).
Defined.
